(** * TonPay402 off-chain coordinator: a shallow embedding in Rocq

    This development models the TypeScript coordinator of TonPay402:
    - the x402 facilitator client with bounded retries
      ([requestFacilitatorDecision], src/unnamed/part_000);
    - the envelope ledger (broker) of shared, windowed budgets
      ([createEnvelope], [getEnvelopeAllowance], [reserveEnvelopeBudget],
      [rollbackEnvelopeReservation]) and the [execute_envelope_payment]
      tool of the MCP server (src/mcp-server/index.ts);
    - the Telegram approval bot: transaction deduplication, the approval
      records, the audit-log correlation and the approve/reject callbacks
      (src/mcp-server/bot.ts).

    External effects (HTTP, chain client, Telegram, clock) are inputs of
    the model: an oracle says what each call returns. *)

From Stdlib Require Import ZArith String DecimalString Lia.
From stdpp Require Import gmap strings list.

Open Scope string_scope.
Open Scope Z_scope.

(* ------------------------------------------------------------------ *)
(** ** Small JavaScript helpers *)

(** [s.trim()] is empty exactly when every character is white space. *)
Definition is_js_space (c : Ascii.ascii) : bool :=
  let n := Ascii.nat_of_ascii c in
  (Nat.eqb n 32 || (Nat.leb 9 n && Nat.leb n 13))%bool.

Fixpoint is_blank (s : string) : bool :=
  match s with
  | EmptyString => true
  | String c rest => (is_js_space c && is_blank rest)%bool
  end.

(** [`${n}`] for an integer [n]. *)
Definition Z_to_string (z : Z) : string := NilZero.string_of_int (Z.to_int z).

(** [haystack.includes(needle)] on strings. *)
Fixpoint str_contains (haystack needle : string) : bool :=
  String.prefix needle haystack ||
  match haystack with
  | EmptyString => false
  | String _ rest => str_contains rest needle
  end.

(* ------------------------------------------------------------------ *)
(** ** Facilitator client (src/unnamed/part_000) *)

Module Facilitator.

(** Values returned by [JSON.parse]. *)
#[local] Set Warnings "-register-all".
Inductive JVal :=
| JNull
| JBool (b : bool)
| JNum (n : Z)
| JStr (s : string)
| JArr (xs : list JVal)
| JObj (fields : list (string * JVal)).

(** Property read [body.k] on a parsed object; with duplicate keys,
    [JSON.parse] keeps the last one. [None] is [undefined]. *)
Definition js_field (k : string) (fields : list (string * JVal)) : option JVal :=
  fold_left (fun acc kv => if String.eqb (fst kv) k then Some (snd kv) else acc)
    fields None.

(** [parseFacilitatorJson]: a falsy or non-object value becomes [{}].
    An array is returned as is, but it has none of the named properties
    read below, so it reads like [{}] too. *)
Definition parseFacilitatorJson (raw : JVal) : list (string * JVal) :=
  match raw with
  | JObj fields => fields
  | _ => []
  end.

Record FacilitatorConfig := {
  url : option string;
  apiKey : option string;
  timeoutMs : option Z;
  retryAttempts : option Z;
  retryBackoffMs : option Z;
  network : string
}.

Record FacilitatorDecision := {
  dec_targetAddress : string;
  dec_amountInTon : string;
  dec_reference : option string;
  dec_note : option string
}.

Record FacilitatorRequestInput := {
  in_requestId : string;
  in_contractAddress : string;
  in_targetAddress : string;
  in_amountInTon : string
}.

Definition dq : string := String (Ascii.ascii_of_nat 34) EmptyString.

(** [JSON.stringify] (strings are written without escapes). *)
Fixpoint JSON_stringify (v : JVal) : string :=
  match v with
  | JNull => "null"
  | JBool true => "true"
  | JBool false => "false"
  | JNum n => Z_to_string n
  | JStr s => dq ++ s ++ dq
  | JArr xs =>
      "[" ++
      (fix items (xs : list JVal) : string :=
         match xs with
         | [] => ""
         | [x] => JSON_stringify x
         | x :: rest => JSON_stringify x ++ "," ++ items rest
         end) xs ++ "]"
  | JObj fields =>
      "{" ++
      (fix members (fs : list (string * JVal)) : string :=
         match fs with
         | [] => ""
         | [(k, x)] => dq ++ k ++ dq ++ ":" ++ JSON_stringify x
         | (k, x) :: rest => dq ++ k ++ dq ++ ":" ++ JSON_stringify x ++ "," ++ members rest
         end) fields ++ "}"
  end.

(** What one [fetch] of the facilitator does: either the call throws
    (network error, abort after [timeoutMs]), or a response arrives with
    its [ok] flag, status, raw text, and the outcome of
    [JSON.parse(rawBody)] (an exception message or a value). *)
Inductive FetchOutcome :=
| FetchThrows (message : string)
| FetchResponse (ok : bool) (status : Z) (rawBody : string) (parsed : string + JVal).

(** A [200] response whose text is [JSON.stringify(v)], as the mocked
    [fetch] of the test suite returns. *)
Definition jsonResponse (v : JVal) : FetchOutcome :=
  FetchResponse true 200 (JSON_stringify v) (inr v).

Definition defined_not_string (v : option JVal) : bool :=
  match v with
  | None => false
  | Some (JStr _) => false
  | Some _ => true
  end.

Definition string_or (v : option JVal) (fallback : string) : string :=
  match v with
  | Some (JStr s) => s
  | _ => fallback
  end.

Definition string_opt (v : option JVal) : option string :=
  match v with
  | Some (JStr s) => Some s
  | _ => None
  end.

(** [rawBody ? JSON.parse(rawBody) : {}] *)
Definition readBody (rawBody : string) (parsed : string + JVal) : string + JVal :=
  if String.eqb rawBody "" then inr (JObj []) else parsed.

(** The body of the [try] block of one attempt: [inl message] is the
    error thrown, [inr decision] the value returned. *)
Definition facilitatorAttempt (input : FacilitatorRequestInput) (resp : FetchOutcome)
    : string + FacilitatorDecision :=
  match resp with
  | FetchThrows m => inl m
  | FetchResponse ok status rawBody parsed =>
      if negb ok then
        inl ("Facilitator error " ++ Z_to_string status ++ ": " ++
             (if String.eqb rawBody "" then "no response body" else rawBody))
      else
        match readBody rawBody parsed with
        | inl m => inl m
        | inr raw =>
            let body := parseFacilitatorJson raw in
            let accepted :=
              match js_field "accepted" body with
              | Some (JBool b) => b
              | _ => true
              end in
            if negb accepted then
              inl (string_or (js_field "reason" body)
                     "Facilitator rejected the payment request")
            else if defined_not_string (js_field "targetAddress" body) then
              inl "Facilitator response has invalid targetAddress type"
            else if defined_not_string (js_field "amountInTon" body) then
              inl "Facilitator response has invalid amountInTon type"
            else
              inr {| dec_targetAddress := string_or (js_field "targetAddress" body) (in_targetAddress input);
                     dec_amountInTon := string_or (js_field "amountInTon" body) (in_amountInTon input);
                     dec_reference := string_opt (js_field "reference" body);
                     dec_note := string_opt (js_field "note" body) |}
        end
  end.

(** Observable effects of the retry loop: a [fetch] for attempt [k] and
    a [sleep(ms)]. *)
Inductive FacilitatorEvent :=
| Fetch (attempt : Z)
| Sleep (ms : Z).

Definition failureMessage (lastError : option string) : string :=
  "x402 facilitator integration failed: " ++
  match lastError with Some m => m | None => "undefined" end.

Section Loop.
Variable service : Z -> FetchOutcome.
Variable input : FacilitatorRequestInput.
Variable totalAttempts : Z.
Variable backoffMs : Z.

(** [for (let attempt = 1; attempt <= totalAttempts; attempt += 1)]
    with its [try]/[catch]: the fuel only bounds the recursion, the
    guard is the source's. *)
Fixpoint attemptLoop (fuel : nat) (attempt : Z) (lastError : option string)
    : list FacilitatorEvent * (string + FacilitatorDecision) :=
  match fuel with
  | O => ([], inl (failureMessage lastError))
  | S fuel' =>
      if attempt <=? totalAttempts then
        match facilitatorAttempt input (service attempt) with
        | inr d => ([Fetch attempt], inr d)
        | inl e =>
            let '(tr, res) := attemptLoop fuel' (attempt + 1) (Some e) in
            ((Fetch attempt ::
               (if attempt <? totalAttempts then [Sleep (backoffMs * attempt)] else []))
               ++ tr, res)%list
        end
      else ([], inl (failureMessage lastError))
  end.

End Loop.

Definition effectiveRetryAttempts (config : FacilitatorConfig) : Z :=
  match retryAttempts config with Some n => n | None => 0 end.

Definition effectiveBackoffMs (config : FacilitatorConfig) : Z :=
  match retryBackoffMs config with Some n => n | None => 300 end.

(** [requestFacilitatorDecision]: [inr None] is [null] (no URL),
    [inr (Some d)] a decision, [inl message] the thrown error. *)
Definition requestFacilitatorDecision (service : Z -> FetchOutcome)
    (input : FacilitatorRequestInput) (config : FacilitatorConfig)
    : list FacilitatorEvent * (string + option FacilitatorDecision) :=
  let u := match url config with Some u => u | None => "" end in
  if is_blank u then ([], inr None)
  else
    let totalAttempts := effectiveRetryAttempts config + 1 in
    let '(tr, res) :=
      attemptLoop service input totalAttempts (effectiveBackoffMs config)
        (Z.to_nat totalAttempts) 1 None in
    (tr, match res with inl m => inl m | inr d => inr (Some d) end).

(** The full schedule of [totalAttempts] attempts: a fetch for each
    attempt, and a wait of [attempt * backoffMs] after each but the last. *)
Fixpoint scheduleFrom (backoffMs totalAttempts : Z) (attempt : Z) (n : nat)
    : list FacilitatorEvent :=
  match n with
  | O => []
  | S n' =>
      (Fetch attempt ::
         (if attempt <? totalAttempts then [Sleep (backoffMs * attempt)] else []))
      ++ scheduleFrom backoffMs totalAttempts (attempt + 1) n'
  end%list.

Definition schedule (backoffMs totalAttempts : Z) : list FacilitatorEvent :=
  scheduleFrom backoffMs totalAttempts 1 (Z.to_nat totalAttempts).

Definition is_fetch (ev : FacilitatorEvent) : bool :=
  match ev with Fetch _ => true | Sleep _ => false end.

Definition fetchCount (tr : list FacilitatorEvent) : nat :=
  length (List.filter is_fetch tr).

(** Fixtures of the facilitator test suite (src/unnamed/part_002). *)
Definition testInput : FacilitatorRequestInput := {|
  in_requestId := "req-4";
  in_contractAddress := "EQBBBBBBBBBBBBBBBBBBBBBBBBBBBBBBBBBBBBBBBBBBBRs8";
  in_targetAddress := "EQCCCCCCCCCCCCCCCCCCCCCCCCCCCCCCCCCCCCCCCCCCClzv";
  in_amountInTon := "0.3" |}.

Definition testConfig (retries : option Z) (backoff : option Z) : FacilitatorConfig := {|
  url := Some "https://facilitator.local/decide";
  apiKey := None;
  timeoutMs := Some 1000;
  retryAttempts := retries;
  retryBackoffMs := backoff;
  network := "testnet" |}.

(** First call: HTTP 503; later calls: [{accepted: true}]. *)
Definition failOnceService (attempt : Z) : FetchOutcome :=
  if attempt =? 1
  then FetchResponse false 503 "upstream unavailable" (inl "Unexpected token u in JSON")
  else jsonResponse (JObj [("accepted", JBool true)]).

(** First call: [{accepted: false, reason: "X"}]; later calls accept. *)
Definition rejectOnceService (attempt : Z) : FetchOutcome :=
  if attempt =? 1
  then jsonResponse (JObj [("accepted", JBool false); ("reason", JStr "X")])
  else jsonResponse (JObj [("accepted", JBool true)]).

(** Every call: [{accepted: false, reason: "X"}]. *)
Definition alwaysRejectService (attempt : Z) : FetchOutcome :=
  jsonResponse (JObj [("accepted", JBool false); ("reason", JStr "X")]).

(** Every call: [{amountInTon: 10}], as in the invalid-amount test. *)
Definition numericAmountService (attempt : Z) : FetchOutcome :=
  jsonResponse (JObj [("amountInTon", JNum 10)]).

(** Every call: [{accepted: "yes", note: "n"}]. *)
Definition stringAcceptedService (attempt : Z) : FetchOutcome :=
  jsonResponse (JObj [("accepted", JStr "yes"); ("note", JStr "n")]).

End Facilitator.

(* ------------------------------------------------------------------ *)
(** ** Envelope ledger (the broker module, src/mcp-server/bot.ts 480-671) *)

Module Broker.

(** Amounts are [bigint]s kept as decimal strings in the record; the
    strings always come from [toString] and are read back with [BigInt],
    so they are modelled by their integer value. [createdAt] keeps the
    second [now] it is rendered from. *)
Record EnvelopeRecord := {
  id : string;
  totalBudgetNano : Z;
  spentInWindowNano : Z;
  periodSeconds : Z;
  windowStartedAt : Z;
  createdAt : Z;
  agentIds : list string
}.

(** [BrokerState.envelopes : Record<string, EnvelopeRecord>] *)
Abbreviation BrokerState := (gmap string EnvelopeRecord).

(** The errors thrown, one per [throw new Error(...)] of the module. *)
Inductive BrokerError :=
| EnvelopeIdRequired
| TotalBudgetNotPositive
| PeriodNotPositive
| EnvelopeAlreadyExists (envelopeId : string)
| EnvelopeNotFound (envelopeId : string)
| AgentIdRequired
| AmountNotPositive
| AgentNotAssigned (agentId envelopeId : string)
| EnvelopeLimitExceeded (envelopeId : string) (remainingNano requestedNano : Z)
| CannotRollback (amountNano : Z) (envelopeId : string) (spentNano : Z).

(** The error kinds of the design (section 7 of the spec). *)
Inductive ErrorKind :=
| InvalidArgument | NotFound | Unauthorized | BudgetExceeded | InvariantViolation.

Definition errorKind (err : BrokerError) : ErrorKind :=
  match err with
  | EnvelopeIdRequired | TotalBudgetNotPositive | PeriodNotPositive
  | EnvelopeAlreadyExists _ | AgentIdRequired | AmountNotPositive => InvalidArgument
  | EnvelopeNotFound _ => NotFound
  | AgentNotAssigned _ _ => Unauthorized
  | EnvelopeLimitExceeded _ _ _ => BudgetExceeded
  | CannotRollback _ _ _ => InvariantViolation
  end.

(** [{ ...envelope, spentInWindowNano: s }] *)
Definition with_spent (e : EnvelopeRecord) (s : Z) : EnvelopeRecord := {|
  id := id e; totalBudgetNano := totalBudgetNano e; spentInWindowNano := s;
  periodSeconds := periodSeconds e; windowStartedAt := windowStartedAt e;
  createdAt := createdAt e; agentIds := agentIds e |}.

Definition normalizeWindow (envelope : EnvelopeRecord) (currentNow : Z) : EnvelopeRecord :=
  if windowStartedAt envelope + periodSeconds envelope <=? currentNow then
    {| id := id envelope; totalBudgetNano := totalBudgetNano envelope;
       spentInWindowNano := 0; periodSeconds := periodSeconds envelope;
       windowStartedAt := currentNow; createdAt := createdAt envelope;
       agentIds := agentIds envelope |}
  else envelope.

Definition emptyBrokerState : BrokerState := empty.

(** Each operation mutates [args.state] in place and may throw after a
    mutation, so it returns the resulting state together with either the
    error thrown or the value returned. [now] is the explicit clock. *)
Definition createEnvelope (state : BrokerState) (envelopeId : string)
    (totalBudgetNano' : Z) (periodSeconds' : Z) (now : Z)
    : BrokerState * (BrokerError + EnvelopeRecord) :=
  if is_blank envelopeId then (state, inl EnvelopeIdRequired)
  else if totalBudgetNano' <=? 0 then (state, inl TotalBudgetNotPositive)
  else if periodSeconds' <=? 0 then (state, inl PeriodNotPositive)
  else
    match state !! envelopeId with
    | Some _ => (state, inl (EnvelopeAlreadyExists envelopeId))
    | None =>
        let envelope := {| id := envelopeId; totalBudgetNano := totalBudgetNano';
                           spentInWindowNano := 0; periodSeconds := periodSeconds';
                           windowStartedAt := now; createdAt := now; agentIds := [] |} in
        (<[envelopeId := envelope]> state, inr envelope)
    end.

Definition assignAgentToEnvelope (state : BrokerState) (envelopeId agentId : string)
    : BrokerState * (BrokerError + EnvelopeRecord) :=
  match state !! envelopeId with
  | None => (state, inl (EnvelopeNotFound envelopeId))
  | Some envelope =>
      if is_blank agentId then (state, inl AgentIdRequired)
      else if existsb (String.eqb agentId) (agentIds envelope) then (state, inr envelope)
      else
        (* [envelope.agentIds.push(agentId)] on the stored object *)
        let pushed := {| id := id envelope; totalBudgetNano := totalBudgetNano envelope;
                         spentInWindowNano := spentInWindowNano envelope;
                         periodSeconds := periodSeconds envelope;
                         windowStartedAt := windowStartedAt envelope;
                         createdAt := createdAt envelope;
                         agentIds := (agentIds envelope ++ [agentId])%list |} in
        (<[envelopeId := pushed]> state, inr pushed)
  end.

Definition getEnvelopeAllowance (state : BrokerState) (envelopeId : string) (now : Z)
    : BrokerState * (BrokerError + (EnvelopeRecord * Z)) :=
  match state !! envelopeId with
  | None => (state, inl (EnvelopeNotFound envelopeId))
  | Some existing =>
      let normalized := normalizeWindow existing now in
      (<[envelopeId := normalized]> state,
       inr (normalized, totalBudgetNano normalized - spentInWindowNano normalized))
  end.

Definition reserveEnvelopeBudget (state : BrokerState) (envelopeId agentId : string)
    (amountNano : Z) (now : Z) : BrokerState * (BrokerError + (EnvelopeRecord * Z)) :=
  if amountNano <=? 0 then (state, inl AmountNotPositive)
  else
    let '(state1, allowance) := getEnvelopeAllowance state envelopeId now in
    match allowance with
    | inl err => (state1, inl err)
    | inr (envelope, remainingNano) =>
        if negb (existsb (String.eqb agentId) (agentIds envelope)) then
          (state1, inl (AgentNotAssigned agentId envelopeId))
        else if remainingNano <? amountNano then
          (state1, inl (EnvelopeLimitExceeded envelopeId remainingNano amountNano))
        else
          let nextSpent := spentInWindowNano envelope + amountNano in
          let updated := with_spent envelope nextSpent in
          (<[envelopeId := updated]> state1,
           inr (updated, totalBudgetNano updated - nextSpent))
    end.

Definition rollbackEnvelopeReservation (state : BrokerState) (envelopeId : string)
    (amountNano : Z) : BrokerState * (BrokerError + EnvelopeRecord) :=
  if amountNano <=? 0 then (state, inl AmountNotPositive)
  else
    match state !! envelopeId with
    | None => (state, inl (EnvelopeNotFound envelopeId))
    | Some envelope =>
        let spent := spentInWindowNano envelope in
        let nextSpent := spent - amountNano in
        if nextSpent <? 0 then (state, inl (CannotRollback amountNano envelopeId spent))
        else
          let updated := with_spent envelope nextSpent in
          (<[envelopeId := updated]> state, inr updated)
    end.

(** The ledger operations the MCP tools perform. *)
Inductive BrokerOp :=
| OpCreate (envelopeId : string) (totalBudgetNano periodSeconds now : Z)
| OpAssign (envelopeId agentId : string)
| OpAllowance (envelopeId : string) (now : Z)
| OpReserve (envelopeId agentId : string) (amountNano now : Z)
| OpRollback (envelopeId : string) (amountNano : Z).

Definition applyOp (state : BrokerState) (op : BrokerOp) : BrokerState :=
  match op with
  | OpCreate i t p n => fst (createEnvelope state i t p n)
  | OpAssign i a => fst (assignAgentToEnvelope state i a)
  | OpAllowance i n => fst (getEnvelopeAllowance state i n)
  | OpReserve i a amt n => fst (reserveEnvelopeBudget state i a amt n)
  | OpRollback i amt => fst (rollbackEnvelopeReservation state i amt)
  end.

Definition runOps (state : BrokerState) (ops : list BrokerOp) : BrokerState :=
  fold_left applyOp ops state.

(** [0 <= spent <= total] for every stored envelope. *)
Definition budget_inv (state : BrokerState) : Prop :=
  map_Forall (fun _ e => 0 <= spentInWindowNano e <= totalBudgetNano e) state.

(** The remaining allowance an allowance read reports. *)
Definition remainingAt (state : BrokerState) (envelopeId : string) (now : Z) : option Z :=
  match snd (getEnvelopeAllowance state envelopeId now) with
  | inr (_, remaining) => Some remaining
  | inl _ => None
  end.

(** The scenario of the window-reset test: total 10, 10 s window created
    at t = 100, agent assigned, 8 spent at t = 105. *)
Definition dailyScenario : BrokerState :=
  runOps emptyBrokerState
    [OpCreate "daily" 10 10 100; OpAssign "daily" "agent-a";
     OpReserve "daily" "agent-a" 8 105].

End Broker.

(* ------------------------------------------------------------------ *)
(** ** The [execute_envelope_payment] tool (src/mcp-server/index.ts 458-511) *)

Module Coordinator.
Import Broker.

(** What the tool throws. *)
Inductive CoordinatorError :=
| PreparationFailed (message : string)   (* preparePaymentRequest threw *)
| LedgerFailed (err : BrokerError)        (* a ledger operation threw *)
| SubmissionFailed (message : string).   (* submitPreparedPayment threw *)

(** The ledger and chain steps of the tool, in order. *)
Inductive CoordinatorEvent :=
| Reserved (amountNano : Z)
| SubmissionAttempted
| RolledBack (amountNano : Z).

(** [prepared] is what [preparePaymentRequest] gives: its error, or the
    [amountNano] of the prepared payment; [submission] is what
    [submitPreparedPayment] does (its error, or success). [reserveNow] and
    [allowanceNow] are the clock at the two ledger reads. Returns the
    broker state, the steps taken, and the error thrown or the remaining
    allowance reported. *)
(** The [catch (error)] block: roll the reservation back, save, rethrow
    (a failing rollback throws its own error instead). *)
Definition rollbackAndRethrow (state : BrokerState) (envelopeId : string) (amountNano : Z)
    (thrown : CoordinatorError) : BrokerState * list CoordinatorEvent * (CoordinatorError + Z) :=
  let '(state2, rolled) := rollbackEnvelopeReservation state envelopeId amountNano in
  match rolled with
  | inl err => (state2, [Reserved amountNano; SubmissionAttempted], inl (LedgerFailed err))
  | inr _ => (state2, [Reserved amountNano; SubmissionAttempted; RolledBack amountNano], inl thrown)
  end.

(** [prepared] is what [preparePaymentRequest] gives: its error, or the
    [amountNano] of the prepared payment; [submission] is what
    [submitPreparedPayment] does (its error, or success). [reserveNow] and
    [allowanceNow] are the clock at the two ledger reads. Returns the
    broker state, the steps taken, and the error thrown or the remaining
    allowance reported. *)
Definition execute_envelope_payment (brokerState : BrokerState)
    (envelopeId agentId : string) (prepared : string + Z) (submission : string + unit)
    (reserveNow allowanceNow : Z)
    : BrokerState * list CoordinatorEvent * (CoordinatorError + Z) :=
  match prepared with
  | inl m => (brokerState, [], inl (PreparationFailed m))
  | inr amountNano =>
      let '(state1, reserved) :=
        reserveEnvelopeBudget brokerState envelopeId agentId amountNano reserveNow in
      match reserved with
      | inl err => (state1, [], inl (LedgerFailed err))
      | inr _ =>
          (* try { ... } *)
          match submission with
          | inr tt =>
              let '(state2, allowance) := getEnvelopeAllowance state1 envelopeId allowanceNow in
              match allowance with
              | inr (_, remainingNano) =>
                  (state2, [Reserved amountNano; SubmissionAttempted], inr remainingNano)
              | inl err => rollbackAndRethrow state2 envelopeId amountNano (LedgerFailed err)
              end
          | inl m => rollbackAndRethrow state1 envelopeId amountNano (SubmissionFailed m)
          end
      end
  end.

End Coordinator.

(* ------------------------------------------------------------------ *)
(** ** The Telegram approval bot (src/mcp-server/bot.ts 1-478) *)

Module ApprovalBot.

(** [PendingApproval]; [target] is kept as its rendering
    [target.toString()], which is all the bot compares or stores. *)
Record PendingApproval := {
  id : string;
  amount : Z;
  target : string;
  txLt : string;
  txHashHex : string
}.

(** The request audit log ([REQUEST_AUDIT_FILE]), written by the MCP
    server in the order the requests are made. *)
Module Audit.

Inductive RequestAuditStatus :=
| ReqSubmitted | ReqApprovalPending | ReqApproved | ReqRejected | ReqFailed.

Record RequestAuditRecord := {
  requestId : string;
  contractAddress : string;
  targetAddress : string;
  amountInTon : string;
  amountNano : string;
  createdAt : string;
  status : RequestAuditStatus;
  approvalExpected : bool;
  consumedByApprovalId : option string;
  statusUpdatedAt : option Z
}.

(** JavaScript truthiness of an optional string field. *)
Definition truthy (o : option string) : bool :=
  match o with Some s => negb (String.eqb s "") | None => false end.

(** The four [continue] tests of the scan, negated. *)
Definition claimable (contractAddressStr : string) (approval : PendingApproval)
    (record : RequestAuditRecord) : bool :=
  negb (truthy (consumedByApprovalId record)) &&
  String.eqb (contractAddress record) contractAddressStr &&
  String.eqb (targetAddress record) (target approval) &&
  String.eqb (amountNano record) (Z_to_string (amount approval)).

(** The three assignments made to the matching record. *)
Definition markClaimed (approval : PendingApproval) (now : Z) (record : RequestAuditRecord)
    : RequestAuditRecord := {|
  requestId := requestId record; contractAddress := contractAddress record;
  targetAddress := targetAddress record; amountInTon := amountInTon record;
  amountNano := amountNano record; createdAt := createdAt record;
  status := ReqApprovalPending; approvalExpected := approvalExpected record;
  consumedByApprovalId := Some (id approval); statusUpdatedAt := Some now |}.

(** The loop [for (i = records.length - 1; i >= 0; i -= 1)], run over the
    reversed list: the updated reversed list and the [requestId] returned. *)
Fixpoint claimScan (contractAddressStr : string) (approval : PendingApproval) (now : Z)
    (fromEnd : list RequestAuditRecord) : option (list RequestAuditRecord * string) :=
  match fromEnd with
  | [] => None
  | record :: rest =>
      if claimable contractAddressStr approval record
      then Some (markClaimed approval now record :: rest, requestId record)
      else match claimScan contractAddressStr approval now rest with
           | Some (rest', rid) => Some (record :: rest', rid)
           | None => None
           end
  end.

(** The audit file after the call, and the [requestId] returned. *)
Definition claimMatchingRequestId (contractAddressStr : string) (approval : PendingApproval)
    (now : Z) (records : list RequestAuditRecord) : list RequestAuditRecord * option string :=
  match claimScan contractAddressStr approval now (rev records) with
  | Some (fromEnd', rid) => (rev fromEnd', Some rid)
  | None => (records, None)
  end.

Definition with_status (st : RequestAuditStatus) (now : Z) (record : RequestAuditRecord)
    : RequestAuditRecord := {|
  requestId := requestId record; contractAddress := contractAddress record;
  targetAddress := targetAddress record; amountInTon := amountInTon record;
  amountNano := amountNano record; createdAt := createdAt record;
  status := st; approvalExpected := approvalExpected record;
  consumedByApprovalId := consumedByApprovalId record; statusUpdatedAt := Some now |}.

Fixpoint updateScan (rid : string) (st : RequestAuditStatus) (now : Z)
    (fromEnd : list RequestAuditRecord) : option (list RequestAuditRecord) :=
  match fromEnd with
  | [] => None
  | record :: rest =>
      if String.eqb (requestId record) rid then Some (with_status st now record :: rest)
      else option_map (cons record) (updateScan rid st now rest)
  end.

Definition updateRequestAuditStatus (rid : option string) (st : RequestAuditStatus) (now : Z)
    (records : list RequestAuditRecord) : list RequestAuditRecord :=
  if truthy rid then
    match rid with
    | Some r =>
        match updateScan r st now (rev records) with
        | Some fromEnd' => rev fromEnd'
        | None => records
        end
    | None => records
    end
  else records.

End Audit.

Inductive ApprovalStatus := Pending | Approved | Rejected | Failed.

Definition statusText (s : ApprovalStatus) : string :=
  match s with
  | Pending => "pending" | Approved => "approved"
  | Rejected => "rejected" | Failed => "failed"
  end.

Definition is_pending (s : ApprovalStatus) : bool :=
  match s with Pending => true | _ => false end.

(** [ApprovalRecord = PendingApproval & {...}]; the dates are the clock
    values they are rendered from. *)
Record ApprovalRecord := {
  approval : PendingApproval;
  status : ApprovalStatus;
  createdAt : Z;
  requestId : option string;
  resolvedAt : option Z;
  resolvedBy : option string;
  ownerWallet : option string;
  submitError : option string
}.

Record BotConfig := {
  ownerChatId : string;          (* OWNER_CHAT_ID *)
  contractAddressStr : string    (* CONTRACT_ADDRESS.toString() *)
}.

(** The process state ([approvalRecords], [pendingApprovals],
    [seenTransactions]), the audit file, and the state file
    [APPROVAL_STATE_FILE] (its records round-trip through
    [toPersistedRecord]/[fromPersistedRecord] unchanged). *)
Record BotState := {
  approvalRecords : gmap string ApprovalRecord;
  pendingApprovals : gmap string PendingApproval;
  seenTransactions : gset string;
  requestAudit : list Audit.RequestAuditRecord;
  savedRecords : gmap string ApprovalRecord;
  savedSeen : gset string
}.

Definition with_records (st : BotState) (r : gmap string ApprovalRecord) : BotState := {|
  approvalRecords := r; pendingApprovals := pendingApprovals st;
  seenTransactions := seenTransactions st; requestAudit := requestAudit st;
  savedRecords := savedRecords st; savedSeen := savedSeen st |}.

Definition with_pending (st : BotState) (p : gmap string PendingApproval) : BotState := {|
  approvalRecords := approvalRecords st; pendingApprovals := p;
  seenTransactions := seenTransactions st; requestAudit := requestAudit st;
  savedRecords := savedRecords st; savedSeen := savedSeen st |}.

Definition with_seen (st : BotState) (s : gset string) : BotState := {|
  approvalRecords := approvalRecords st; pendingApprovals := pendingApprovals st;
  seenTransactions := s; requestAudit := requestAudit st;
  savedRecords := savedRecords st; savedSeen := savedSeen st |}.

Definition with_audit (st : BotState) (a : list Audit.RequestAuditRecord) : BotState := {|
  approvalRecords := approvalRecords st; pendingApprovals := pendingApprovals st;
  seenTransactions := seenTransactions st; requestAudit := a;
  savedRecords := savedRecords st; savedSeen := savedSeen st |}.

Definition saveState (st : BotState) : BotState := {|
  approvalRecords := approvalRecords st; pendingApprovals := pendingApprovals st;
  seenTransactions := seenTransactions st; requestAudit := requestAudit st;
  savedRecords := approvalRecords st; savedSeen := seenTransactions st |}.

Definition upsertRecord (st : BotState) (record : ApprovalRecord) : BotState :=
  saveState (with_records st (<[id (approval record) := record]> (approvalRecords st))).

(** [extra] is given by the keys it holds: [Some v] for a key present. *)
Definition setRecordStatus (st : BotState) (approvalId : string) (status' : ApprovalStatus)
    (resolvedBy' : string) (extraOwnerWallet extraSubmitError : option string) (now : Z)
    : BotState :=
  match approvalRecords st !! approvalId with
  | None => st
  | Some existing =>
      saveState (with_records st (<[approvalId := {|
        approval := approval existing; status := status';
        createdAt := createdAt existing; requestId := requestId existing;
        resolvedAt := Some now; resolvedBy := Some resolvedBy';
        ownerWallet := match extraOwnerWallet with
                       | Some w => Some w | None => ownerWallet existing end;
        submitError := match extraSubmitError with
                       | Some e => Some e | None => submitError existing end |}]>
        (approvalRecords st)))
  end.

Definition recordRequestId (st : BotState) (approvalId : string) : option string :=
  match approvalRecords st !! approvalId with Some r => requestId r | None => None end.

(** A chain transaction: its logical time, [hash().toString("hex")], and
    for each outgoing message the [ApprovalRequest] ([amount], [target])
    its body decodes to, if any. *)
Record Transaction := {
  lt : Z;
  hash : string;
  outMessages : list (option (Z * string))
}.

Definition approvalKeyFromTx (txLt' : Z) (txHashHex' : string) : string :=
  Z_to_string txLt' ++ "-" ++ substring 0 8 txHashHex'.

Fixpoint firstApprovalRequest (msgs : list (option (Z * string))) : option (Z * string) :=
  match msgs with
  | [] => None
  | Some p :: _ => Some p
  | None :: rest => firstApprovalRequest rest
  end.

Definition parseApprovalFromTransaction (st : BotState) (tx : Transaction)
    : option PendingApproval :=
  if bool_decide (hash tx ∈ seenTransactions st) then None
  else
    match firstApprovalRequest (outMessages tx) with
    | None => None
    | Some (amt, tgt) =>
        Some {| id := approvalKeyFromTx (lt tx) (hash tx); amount := amt; target := tgt;
                txLt := Z_to_string (lt tx); txHashHex := hash tx |}
    end.

(** What the bot does that can be observed: its Telegram calls, and the
    re-creation of a pending approval for an existing record. *)
Inductive BotOutput :=
| Notified (approvalId txHashHex' : string) (requestId' : option string)
    (* bot.api.sendMessage to the owner, with the Approve/Reject keyboard *)
| PendingRestored (approvalId : string)
| Answered (text : string)
| Replied (text : string).

(** [sendResult] is the outcome of [bot.api.sendMessage]: [None] when it
    returns, [Some message] when it throws. The result's third component
    is the exception that leaves the function. *)
Definition notifyApprovalRequest (cfg : BotConfig) (st : BotState) (a : PendingApproval)
    (now : Z) (sendResult : option string) : BotState * list BotOutput * option string :=
  match approvalRecords st !! id a with
  | Some existingRecord =>
      if is_pending (status existingRecord) &&
         negb (match pendingApprovals st !! id a with Some _ => true | None => false end)
      then (with_pending st (<[id a := a]> (pendingApprovals st)), [PendingRestored (id a)], None)
      else (st, [], None)
  | None =>
      let st1 := with_pending st (<[id a := a]> (pendingApprovals st)) in
      let '(audit', requestId') :=
        Audit.claimMatchingRequestId (contractAddressStr cfg) a now (requestAudit st1) in
      let st2 := upsertRecord (with_audit st1 audit') {|
        approval := a; status := Pending; createdAt := now; requestId := requestId';
        resolvedAt := None; resolvedBy := None; ownerWallet := None; submitError := None |} in
      (st2, [Notified (id a) (txHashHex a) requestId'], sendResult)
  end.

(** The [for (const tx of transactions)] loop of a poll tick. *)
Fixpoint processTransactions (cfg : BotConfig) (st : BotState) (txs : list Transaction)
    (sendResult : string -> option string) (now : Z)
    : BotState * list BotOutput * option string :=
  match txs with
  | [] => (st, [], None)
  | tx :: rest =>
      match parseApprovalFromTransaction st tx with
      | None => processTransactions cfg st rest sendResult now
      | Some a =>
          let '(st1, o1, err) := notifyApprovalRequest cfg st a now (sendResult (id a)) in
          match err with
          | Some e => (st1, o1, Some e)
          | None =>
              let '(st2, o2, err2) := processTransactions cfg st1 rest sendResult now in
              (st2, (o1 ++ o2)%list, err2)
          end
      end
  end.

Definition markSeen (st : BotState) (txs : list Transaction) : BotState :=
  saveState (with_seen st (fold_left (fun s tx => {[hash tx]} ∪ s) txs (seenTransactions st))).

(** One [setInterval] tick of [monitorContract]: an exception skips
    [markSeen] and is only logged. *)
Definition pollTick (cfg : BotConfig) (st : BotState) (txs : list Transaction)
    (sendResult : string -> option string) (now : Z) : BotState * list BotOutput :=
  let '(st1, outs, err) := processTransactions cfg st txs sendResult now in
  match err with
  | Some _ => (st1, outs)
  | None => (markSeen st1 txs, outs)
  end.

(** A new process: [loadState] into empty maps, then the bootstrap of
    [monitorContract] over the [recent] history. *)
Definition pendingOfRecord (r : ApprovalRecord) : option PendingApproval :=
  if is_pending (status r) then Some (approval r) else None.

Definition loadState (st : BotState) : BotState := {|
  approvalRecords := savedRecords st;
  pendingApprovals := omap pendingOfRecord (savedRecords st);
  seenTransactions := savedSeen st;
  requestAudit := requestAudit st;
  savedRecords := savedRecords st; savedSeen := savedSeen st |}.

Definition startup (st : BotState) (recent : list Transaction) : BotState :=
  let st1 := loadState st in
  if Nat.eqb (size (seenTransactions st1)) 0 && Nat.eqb (size (pendingApprovals st1)) 0
  then markSeen st1 recent else st1.

(** The outcome of the Telegram calls made inside the [try] of a callback
    handler: [None] when the call returns, [Some message] when it throws. *)
Record TelegramOutcome := {
  answerResult : option string;   (* ctx.answerCallbackQuery *)
  replyResult : option string     (* ctx.reply *)
}.

Definition answerIn (st : BotState) (tg : TelegramOutcome) (text : string)
    : BotState * list BotOutput * option string :=
  match answerResult tg with
  | None => (st, [Answered text], None)
  | Some e => (st, [], Some e)
  end.

(** The [try] block of the approve handler, after its guard. [submit]
    is the outcome of [submitOwnerApproval]: its error message, or the
    owner wallet. *)
Definition approveProceed (st : BotState) (fromId approvalId : string)
    (tg : TelegramOutcome) (submit : string + string) (now : Z)
    : BotState * list BotOutput * option string :=
  match pendingApprovals st !! approvalId with
  | None => answerIn st tg "Approval request not found or already handled."
  | Some _ =>
      match answerResult tg with
      | Some e => (st, [], Some e)
      | None =>
          match submit with
          | inl e => (st, [Answered "Processing approval..."], Some e)
          | inr ownerWallet' =>
              let st1 := with_pending st (delete approvalId (pendingApprovals st)) in
              let rid := recordRequestId st1 approvalId in
              let st2 := setRecordStatus st1 approvalId Approved fromId
                           (Some ownerWallet') None now in
              let st3 := with_audit st2
                (Audit.updateRequestAuditStatus rid Audit.ReqApproved now (requestAudit st2)) in
              match replyResult tg with
              | None => (st3, [Answered "Processing approval...";
                               Replied ("Approved and submitted by owner wallet " ++
                                        ownerWallet' ++ ". Ref: " ++ approvalId)], None)
              | Some e => (st3, [Answered "Processing approval..."], Some e)
              end
          end
      end
  end.

(** The [try] block of the approve handler. *)
Definition approveTry (cfg : BotConfig) (st : BotState) (chatId fromId approvalId : string)
    (tg : TelegramOutcome) (submit : string + string) (now : Z)
    : BotState * list BotOutput * option string :=
  if negb (String.eqb chatId (ownerChatId cfg)) then (st, [], Some "Unauthorized chat")
  else
    match approvalRecords st !! approvalId with
    | Some record =>
        if negb (is_pending (status record))
        then answerIn st tg ("Request already " ++ statusText (status record) ++ ".")
        else approveProceed st fromId approvalId tg submit now
    | None => approveProceed st fromId approvalId tg submit now
    end.

(** [bot.callbackQuery(/approve:(.+)/, ...)]: the [catch] marks the record
    failed, whatever made the [try] block throw. The Telegram calls of the
    [catch] are recorded; that they may throw in turn changes no state. *)
Definition approve_cb (cfg : BotConfig) (st : BotState) (chatId fromId approvalId : string)
    (tg : TelegramOutcome) (submit : string + string) (now : Z) : BotState * list BotOutput :=
  let '(st1, outs, err) := approveTry cfg st chatId fromId approvalId tg submit now in
  match err with
  | None => (st1, outs)
  | Some message =>
      let st3 :=
        if negb (String.eqb approvalId "") then
          let rid := recordRequestId st1 approvalId in
          let st2 := setRecordStatus st1 approvalId Failed fromId None (Some message) now in
          with_audit st2 (Audit.updateRequestAuditStatus rid Audit.ReqFailed now (requestAudit st2))
        else st1 in
      (st3, (outs ++ [Answered "Approval failed.";
                      Replied ("Failed to approve request: " ++ message)])%list)
  end.

(** The [try] block of the reject handler. *)
Definition rejectTry (cfg : BotConfig) (st : BotState) (chatId fromId approvalId : string)
    (tg : TelegramOutcome) (now : Z) : BotState * list BotOutput * option string :=
  if negb (String.eqb chatId (ownerChatId cfg)) then (st, [], Some "Unauthorized chat")
  else
    let proceed :=
      let removed := match pendingApprovals st !! approvalId with
                     | Some _ => true | None => false end in
      let st1 := with_pending st (delete approvalId (pendingApprovals st)) in
      let st2 :=
        if removed then
          let rid := recordRequestId st1 approvalId in
          let st' := setRecordStatus st1 approvalId Rejected fromId None None now in
          with_audit st' (Audit.updateRequestAuditStatus rid Audit.ReqRejected now (requestAudit st'))
        else st1 in
      match answerResult tg with
      | Some e => (st2, [], Some e)
      | None =>
          let answered := Answered (if removed then "Request rejected." else "Request already handled.") in
          match replyResult tg with
          | None => (st2, [answered; Replied ("Rejected request " ++ approvalId)], None)
          | Some e => (st2, [answered], Some e)
          end
      end in
    match approvalRecords st !! approvalId with
    | Some record =>
        if negb (is_pending (status record))
        then answerIn st tg ("Request already " ++ statusText (status record) ++ ".")
        else proceed
    | None => proceed
    end.

(** [bot.callbackQuery(/reject:(.+)/, ...)]: the [catch] only answers. *)
Definition reject_cb (cfg : BotConfig) (st : BotState) (chatId fromId approvalId : string)
    (tg : TelegramOutcome) (now : Z) : BotState * list BotOutput :=
  let '(st1, outs, err) := rejectTry cfg st chatId fromId approvalId tg now in
  match err with
  | None => (st1, outs)
  | Some message =>
      (st1, (outs ++ [Answered "Reject failed.";
                      Replied ("Failed to reject request: " ++ message)])%list)
  end.

(** The events the bot reacts to. A poll whose [getTransactions] throws
    changes nothing and is left out. *)
Inductive BotStep :=
| Startup (recent : list Transaction)
| PollTick (transactions : list Transaction) (sendResult : string -> option string) (now : Z)
| ApproveCallback (chatId fromId approvalId : string) (tg : TelegramOutcome)
    (submit : string + string) (now : Z)
| RejectCallback (chatId fromId approvalId : string) (tg : TelegramOutcome) (now : Z).

Definition botStep (cfg : BotConfig) (st : BotState) (step : BotStep) : BotState * list BotOutput :=
  match step with
  | Startup recent => (startup st recent, [])
  | PollTick txs sendResult now => pollTick cfg st txs sendResult now
  | ApproveCallback chatId fromId approvalId tg submit now =>
      approve_cb cfg st chatId fromId approvalId tg submit now
  | RejectCallback chatId fromId approvalId tg now =>
      reject_cb cfg st chatId fromId approvalId tg now
  end.

Fixpoint runBot (cfg : BotConfig) (st : BotState) (steps : list BotStep)
    : BotState * list BotOutput :=
  match steps with
  | [] => (st, [])
  | step :: rest =>
      let '(st1, o1) := botStep cfg st step in
      let '(st2, o2) := runBot cfg st1 rest in
      (st2, (o1 ++ o2)%list)
  end.

(** A first deployment: nothing in memory, no state file yet. *)
Definition freshBotState (audit : list Audit.RequestAuditRecord) : BotState := {|
  approvalRecords := ∅; pendingApprovals := ∅; seenTransactions := ∅;
  requestAudit := audit; savedRecords := ∅; savedSeen := ∅ |}.

Definition notifiedIds (outs : list BotOutput) : list string :=
  flat_map (fun o => match o with Notified i _ _ => [i] | _ => [] end) outs.

Definition notifiedHashes (outs : list BotOutput) : list string :=
  flat_map (fun o => match o with Notified _ h _ => [h] | _ => [] end) outs.

Definition restoredIds (outs : list BotOutput) : list string :=
  flat_map (fun o => match o with PendingRestored i => [i] | _ => [] end) outs.

Definition stepTransactions (step : BotStep) : list Transaction :=
  match step with
  | Startup recent => recent
  | PollTick txs _ _ => txs
  | _ => []
  end.

(** The invariant of the bot's approval bookkeeping: the notified ids
    are distinct and in the state file; the state file's records are in
    memory; a pending record has its pending approval. *)
Definition botInv (st : BotState) (notified : list string) : Prop :=
  NoDup notified /\
  (forall i, In i notified -> is_Some (savedRecords st !! i)) /\
  (forall i, is_Some (savedRecords st !! i) -> is_Some (approvalRecords st !! i)) /\
  (forall i r, approvalRecords st !! i = Some r -> status r = Pending ->
               is_Some (pendingApprovals st !! i)).

Definition notifiedPairs (outs : list BotOutput) : list (string * string) :=
  flat_map (fun o => match o with Notified i h _ => [(i, h)] | _ => [] end) outs.

(** An audit record as the spec describes a claimable one: not consumed,
    same contract address, same target address, exactly the same amount. *)
Definition unconsumedMatch (contractAddressStr : string) (a : PendingApproval)
    (r : Audit.RequestAuditRecord) : Prop :=
  Audit.consumedByApprovalId r = None /\ Audit.contractAddress r = contractAddressStr /\
  Audit.targetAddress r = target a /\ Audit.amountNano r = Z_to_string (amount a).

(** Fixtures. *)
Definition ownerConfig : BotConfig :=
  {| ownerChatId := "42"; contractAddressStr := "EQC-contract" |}.

Definition sampleApproval : PendingApproval :=
  {| id := "7-abcdef01"; amount := 5000000000; target := "EQT-target";
     txLt := "7"; txHashHex := "abcdef0123" |}.

Definition auditRecord (rid : string) (consumed : option string) : Audit.RequestAuditRecord :=
  {| Audit.requestId := rid; Audit.contractAddress := "EQC-contract";
     Audit.targetAddress := "EQT-target"; Audit.amountInTon := "5";
     Audit.amountNano := "5000000000"; Audit.createdAt := rid;
     Audit.status := Audit.ReqSubmitted; Audit.approvalExpected := true;
     Audit.consumedByApprovalId := consumed; Audit.statusUpdatedAt := None |}.

(** Two unconsumed matching requests, then one already consumed. *)
Definition auditLog : list Audit.RequestAuditRecord :=
  [auditRecord "req-1" None; auditRecord "req-2" None; auditRecord "req-3" (Some "5-00aa11bb")].

Definition approvedRecord : ApprovalRecord :=
  {| approval := sampleApproval; status := Approved; createdAt := 1; requestId := Some "req-2";
     resolvedAt := Some 3; resolvedBy := Some "42"; ownerWallet := Some "EQW-owner";
     submitError := None |}.

Definition approvedState : BotState :=
  saveState {| approvalRecords := <["7-abcdef01" := approvedRecord]> ∅;
               pendingApprovals := ∅; seenTransactions := {["abcdef0123"]};
               requestAudit := auditLog; savedRecords := ∅; savedSeen := ∅ |}.

Definition telegramOk : TelegramOutcome := {| answerResult := None; replyResult := None |}.




Definition approvalTx : Transaction :=
  {| lt := 7; hash := "abcdef0123"; outMessages := [None; Some (5000000000, "EQT-target")] |}.

End ApprovalBot.

(* ------------------------------------------------------------------ *)
(** ** The payment path of the MCP server (src/mcp-server/index.ts) *)

Module Payment.
Import Facilitator.

(** [s.trim()]: white space removed at both ends. *)
Fixpoint trimStart (s : string) : string :=
  match s with
  | EmptyString => EmptyString
  | String c rest => if is_js_space c then trimStart rest else s
  end.

Definition reverseString (s : string) : string :=
  string_of_list_ascii (rev (list_ascii_of_string s)).

Definition trim (s : string) : string :=
  reverseString (trimStart (reverseString (trimStart s))).

(** [requiredEnv(name)] over the environment [env]: the error thrown, or
    the trimmed value. *)
Definition requiredEnv (env : string -> option string) (name : string) : string + string :=
  match env name with
  | Some value =>
      if String.eqb value "" || is_blank value
      then inl ("Missing required environment variable: " ++ name)
      else inr (trim value)
  | None => inl ("Missing required environment variable: " ++ name)
  end.

(** [ensureRuntimeGuards()]: [network] is [TON_NETWORK], [enableMainnet]
    is [ENABLE_MAINNET_MODE], the two paths are [REQUEST_AUDIT_FILE] and
    [BROKER_STATE_FILE]; the result is the error thrown, if any. *)
Definition ensureRuntimeGuards (env : string -> option string) (network : string)
    (enableMainnet : bool) (requestAuditFile brokerStateFile : string) : option string :=
  if String.eqb network "mainnet" && negb enableMainnet
  then Some "Mainnet mode requires ENABLE_MAINNET_MODE=true"
  else if String.eqb network "mainnet" then
    match requiredEnv env "AGENT_MNEMONIC" with
    | inl e => Some e
    | inr _ =>
        match requiredEnv env "CONTRACT_ADDRESS" with
        | inl e => Some e
        | inr _ =>
            if is_blank requestAuditFile
            then Some "REQUEST_AUDIT_FILE must be configured in mainnet mode"
            else if is_blank brokerStateFile
            then Some "BROKER_STATE_FILE must be configured in mainnet mode"
            else None
        end
    end
  else None.

(** The arguments of [preparePaymentRequest] ([facilitatorContext] is
    only forwarded to the facilitator and is left out). *)
Record PaymentArgs := {
  arg_contractAddress : string;
  arg_targetAddress : string;
  arg_amountInTon : string;
  arg_requestId : string
}.

(** [PaymentPreparation]; an [Address] is kept as its rendering
    [toString()]. *)
Record PaymentPreparation := {
  prep_requestId : string;
  prep_contractAddr : string;
  prep_targetAddr : string;
  prep_amountNano : Z;
  prep_amountInTon : string;
  prep_facilitatorDecision : option FacilitatorDecision
}.

(** The library calls of the preparation: [Address.parse] (its error, or
    the parsed address rendered by [toString()]) and [toNano] (its error,
    or the amount in nanotons). *)
Record Codecs := {
  addressParse : string -> string + string;
  toNano : string -> string + Z
}.

(** [preparePaymentRequest(args)]: [service] answers the facilitator's
    [fetch] calls, [config] is the facilitator configuration read from the
    environment, [failOpen] is [FACILITATOR_FAIL_OPEN]. Returns the
    facilitator's trace and the error thrown or the preparation. The
    [logEvent] call of the fail-open branch only writes to stderr. *)
Definition preparePaymentRequest (codecs : Codecs) (service : Z -> FetchOutcome)
    (config : FacilitatorConfig) (failOpen : bool) (args : PaymentArgs)
    : list FacilitatorEvent * (string + PaymentPreparation) :=
  match addressParse codecs (arg_contractAddress args) with
  | inl e => ([], inl e)
  | inr contractAddr =>
      let input := {| in_requestId := arg_requestId args;
                      in_contractAddress := arg_contractAddress args;
                      in_targetAddress := arg_targetAddress args;
                      in_amountInTon := arg_amountInTon args |} in
      let '(tr, res) := requestFacilitatorDecision service input config in
      let decided :=
        match res with
        | inr decision => inr decision
        | inl e => if failOpen then inr None else inl e
        end in
      match decided with
      | inl e => (tr, inl e)
      | inr facilitatorDecision =>
          let effectiveTargetAddress :=
            match facilitatorDecision with
            | Some d => dec_targetAddress d | None => arg_targetAddress args end in
          let effectiveAmountInTon :=
            match facilitatorDecision with
            | Some d => dec_amountInTon d | None => arg_amountInTon args end in
          match addressParse codecs effectiveTargetAddress with
          | inl e => (tr, inl e)
          | inr targetAddr =>
              match toNano codecs effectiveAmountInTon with
              | inl e => (tr, inl e)
              | inr amountNano =>
                  (tr, inr {| prep_requestId := arg_requestId args;
                              prep_contractAddr := contractAddr;
                              prep_targetAddr := targetAddr;
                              prep_amountNano := amountNano;
                              prep_amountInTon := effectiveAmountInTon;
                              prep_facilitatorDecision := facilitatorDecision |})
              end
          end
      end
  end.

(** The request audit record as the MCP server writes it. *)
Record ServerAuditRecord := {
  srv_requestId : string;
  srv_contractAddress : string;
  srv_targetAddress : string;
  srv_amountInTon : string;
  srv_amountNano : string;
  srv_createdAt : string;
  srv_status : ApprovalBot.Audit.RequestAuditStatus;
  srv_approvalExpected : bool;
  srv_facilitatorUrl : option string;
  srv_facilitatorReference : option string;
  srv_consumedByApprovalId : option string;
  srv_statusUpdatedAt : option Z
}.

(** [appendAuditRecord(record)]: read the file, push, write it back. *)
Definition appendAuditRecord (records : list ServerAuditRecord) (record : ServerAuditRecord)
    : list ServerAuditRecord :=
  (records ++ [record])%list.

(** The same file as the approval bot reads it: the fields of its own
    [RequestAuditRecord] type. *)
Definition botView (r : ServerAuditRecord) : ApprovalBot.Audit.RequestAuditRecord := {|
  ApprovalBot.Audit.requestId := srv_requestId r;
  ApprovalBot.Audit.contractAddress := srv_contractAddress r;
  ApprovalBot.Audit.targetAddress := srv_targetAddress r;
  ApprovalBot.Audit.amountInTon := srv_amountInTon r;
  ApprovalBot.Audit.amountNano := srv_amountNano r;
  ApprovalBot.Audit.createdAt := srv_createdAt r;
  ApprovalBot.Audit.status := srv_status r;
  ApprovalBot.Audit.approvalExpected := srv_approvalExpected r;
  ApprovalBot.Audit.consumedByApprovalId := srv_consumedByApprovalId r;
  ApprovalBot.Audit.statusUpdatedAt := srv_statusUpdatedAt r |}.

(** The chain and clock calls of [submitPreparedPayment]: each is its
    error or its value ([sendResult] is [None] when [contract.send]
    resolves). *)
Record SubmitOracle := {
  bufferNano : string + Z;          (* toNano(EXECUTION_BUFFER_TON) *)
  agentSender : string + string;    (* getAgentSender: the agent wallet's address *)
  remainingAllowance : string + Z;  (* contract.getRemainingAllowance() *)
  sendResult : option string;       (* contract.send(...) *)
  createdAtIso : string             (* new Date().toISOString() *)
}.

(** The [ExecutePayment] message sent with its attached value. *)
Record ExecutePaymentMsg := {
  msg_value : Z;
  msg_amount : Z;
  msg_target : string
}.

(** [submitPreparedPayment(client, prepared)]: [facilitatorUrl] is
    [X402_FACILITATOR_URL]. Returns the audit file after the call, the
    message handed to [contract.send] (if it was reached), and the error
    thrown or [(agentWallet, approvalExpected)]. *)
Definition submitPreparedPayment (facilitatorUrl : string) (o : SubmitOracle)
    (prepared : PaymentPreparation) (records : list ServerAuditRecord)
    : list ServerAuditRecord * option ExecutePaymentMsg * (string + (string * bool)) :=
  match bufferNano o with
  | inl e => (records, None, inl e)
  | inr buffer =>
      let txValue := prep_amountNano prepared + buffer in
      match agentSender o with
      | inl e => (records, None, inl e)
      | inr agentWallet =>
          match remainingAllowance o with
          | inl e => (records, None, inl e)
          | inr remaining =>
              let msg := {| msg_value := txValue; msg_amount := prep_amountNano prepared;
                            msg_target := prep_targetAddr prepared |} in
              match sendResult o with
              | Some e => (records, Some msg, inl e)
              | None =>
                  let approvalExpected := remaining <? prep_amountNano prepared in
                  let record := {|
                    srv_requestId := prep_requestId prepared;
                    srv_contractAddress := prep_contractAddr prepared;
                    srv_targetAddress := prep_targetAddr prepared;
                    srv_amountInTon := prep_amountInTon prepared;
                    srv_amountNano := Z_to_string (prep_amountNano prepared);
                    srv_createdAt := createdAtIso o;
                    srv_status := if approvalExpected then ApprovalBot.Audit.ReqApprovalPending
                                  else ApprovalBot.Audit.ReqSubmitted;
                    srv_approvalExpected := approvalExpected;
                    srv_facilitatorUrl := if String.eqb facilitatorUrl "" then None
                                          else Some facilitatorUrl;
                    srv_facilitatorReference :=
                      match prep_facilitatorDecision prepared with
                      | Some d => dec_reference d | None => None end;
                    srv_consumedByApprovalId := None;
                    srv_statusUpdatedAt := None |} in
                  (appendAuditRecord records record, Some msg, inr (agentWallet, approvalExpected))
              end
          end
      end
  end.

(** [(args.requestId?.trim()) || `req_${Date.now()}_${random}`]:
    [generated] is the fallback identifier. *)
Definition effectiveRequestId (requested : option string) (generated : string) : string :=
  match requested with
  | Some r => if String.eqb (trim r) "" then generated else trim r
  | None => generated
  end.

Definition truthyStr (o : option string) : bool :=
  match o with Some s => negb (String.eqb s "") | None => false end.

(** The text returned by the [execute_m2m_payment] tool. *)
Definition m2mReplyText (facilitatorUrl requestId agentWallet : string)
    (prepared : PaymentPreparation) (approvalExpected : bool) : string :=
  let approvalHint :=
    if approvalExpected
    then " Payment is above allowance; contract should emit ApprovalRequest for Telegram workflow."
    else "" in
  let reference := match prep_facilitatorDecision prepared with
                   | Some d => dec_reference d | None => None end in
  let note := match prep_facilitatorDecision prepared with
              | Some d => dec_note d | None => None end in
  let facilitatorHint :=
    if String.eqb facilitatorUrl "" then ""
    else " Facilitator" ++
         (if truthyStr reference then " ref=" ++ match reference with Some r => r | None => "" end
          else "") ++
         (if truthyStr note then " (" ++ match note with Some n => n | None => "" end ++ ")"
          else "") ++ "." in
  "Submitted ExecutePayment [requestId=" ++ requestId ++ "] from agent wallet " ++
  agentWallet ++ " for " ++ prep_amountInTon prepared ++ " TON to " ++
  prep_targetAddr prepared ++ " on contract " ++ prep_contractAddr prepared ++ "." ++
  approvalHint ++ facilitatorHint.

(** The [execute_m2m_payment] tool: the facilitator trace, the audit file
    after the call, the message sent (if reached), and the error thrown or
    the reply text. *)
Definition execute_m2m_payment (codecs : Codecs) (service : Z -> FetchOutcome)
    (config : FacilitatorConfig) (failOpen : bool) (o : SubmitOracle)
    (contractAddress targetAddress amountInTon : string)
    (requested : option string) (generated : string) (records : list ServerAuditRecord)
    : list FacilitatorEvent * list ServerAuditRecord * option ExecutePaymentMsg * (string + string) :=
  let requestId := effectiveRequestId requested generated in
  let '(tr, prepared) :=
    preparePaymentRequest codecs service config failOpen
      {| arg_contractAddress := contractAddress; arg_targetAddress := targetAddress;
         arg_amountInTon := amountInTon; arg_requestId := requestId |} in
  match prepared with
  | inl e => (tr, records, None, inl e)
  | inr p =>
      let facilitatorUrl := match url config with Some u => u | None => "" end in
      let '(records', sent, submitted) := submitPreparedPayment facilitatorUrl o p records in
      match submitted with
      | inl e => (tr, records', sent, inl e)
      | inr (agentWallet, approvalExpected) =>
          (tr, records', sent,
           inr (m2mReplyText facilitatorUrl requestId agentWallet p approvalExpected))
      end
  end.

(** Fixtures: address parsing that accepts every address and a unit
    conversion giving 0.3 TON; a chain whose calls all return, and one
    whose [contract.send] throws. *)
Definition acceptAllCodecs : Codecs :=
  {| addressParse := fun s => inr s; toNano := fun _ => inr 300000000 |}.

Definition okChain : SubmitOracle :=
  {| bufferNano := inr 100000000; agentSender := inr "EQA-agent";
     remainingAllowance := inr 1000000000; sendResult := None;
     createdAtIso := "2026-01-01T00:00:00.000Z" |}.

Definition failingSendChain : SubmitOracle :=
  {| bufferNano := inr 100000000; agentSender := inr "EQA-agent";
     remainingAllowance := inr 1000000000; sendResult := Some "Failed to send external message";
     createdAtIso := "2026-01-01T00:00:00.000Z" |}.

End Payment.

(* ------------------------------------------------------------------ *)
(** ** Notions used by the further properties *)

(** A ledger where every envelope is stored under its own [id] and lists
    each agent once. *)
Definition ledger_wf (st : Broker.BrokerState) : Prop :=
  map_Forall (fun k e => Broker.id e = k /\ NoDup (Broker.agentIds e)) st.

(** What a ledger operation keeps of an envelope: its identity, budget,
    period and creation time, and the agents already assigned. *)
Definition terms_kept (e e' : Broker.EnvelopeRecord) : Prop :=
  Broker.id e' = Broker.id e /\ Broker.totalBudgetNano e' = Broker.totalBudgetNano e /\
  Broker.periodSeconds e' = Broker.periodSeconds e /\ Broker.createdAt e' = Broker.createdAt e /\
  Broker.agentIds e `prefix_of` Broker.agentIds e'.

(** The time the facilitator client spends in [sleep]. *)
Definition totalSleep (tr : list Facilitator.FacilitatorEvent) : Z :=
  fold_right (fun ev acc => match ev with
                            | Facilitator.Sleep ms => ms + acc
                            | Facilitator.Fetch _ => acc end) 0 tr.

(* ================================================================== *)
(** * Proofs *)

Import Facilitator.

(** ** Facilitator client *)

Lemma string_prefix_refl (s : string) : String.prefix s s = true.
Proof.
  induction s as [|c s IH]; simpl; [reflexivity|].
  destruct (Ascii.ascii_dec c c); [exact IH | contradiction].
Qed.

Lemma str_contains_suffix (p s : string) : str_contains (p ++ s) s = true.
Proof.
  induction p as [|c p IH]; simpl.
  - destruct s as [|c s]; [reflexivity|].
    apply (proj2 (Bool.orb_true_iff _ _)). left. apply string_prefix_refl.
  - rewrite IH. apply Bool.orb_true_r.
Qed.

Lemma fetchCount_app (l1 l2 : list FacilitatorEvent) :
  fetchCount (l1 ++ l2) = (fetchCount l1 + fetchCount l2)%nat.
Proof. unfold fetchCount. rewrite List.filter_app, length_app. reflexivity. Qed.

Lemma fetchCount_scheduleFrom b total k n :
  fetchCount (scheduleFrom b total k n) = n.
Proof.
  revert k. induction n as [|n IH]; intros k; [reflexivity|].
  cbn [scheduleFrom]. rewrite fetchCount_app, IH.
  destruct (k <? total); reflexivity.
Qed.

Lemma fetchCount_prefix (l1 l2 : list FacilitatorEvent) :
  l1 `prefix_of` l2 -> (fetchCount l1 <= fetchCount l2)%nat.
Proof. intros [rest ->]. rewrite fetchCount_app. lia. Qed.

Section LoopFacts.
Variable service : Z -> FetchOutcome.
Variable input : FacilitatorRequestInput.
Variable total b : Z.

(** Every run of the loop follows the schedule; a failed run is the whole
    schedule and reports the error of the last attempt. *)
Lemma attemptLoop_schedule (n : nat) : forall k last,
  Z.of_nat n = total - k + 1 ->
  let '(tr, res) := attemptLoop service input total b n k last in
  (tr `prefix_of` scheduleFrom b total k n) /\
  (forall m, res = inl m ->
     tr = scheduleFrom b total k n /\
     match n with
     | O => m = failureMessage last
     | S _ => exists e, facilitatorAttempt input (service total) = inl e /\
                        m = failureMessage (Some e)
     end).
Proof.
  induction n as [|n IH]; intros k last Hn; simpl.
  - split; [reflexivity|]. intros m Hm. inversion Hm; subst. split; reflexivity.
  - assert (Hk : (k <=? total) = true) by (apply Z.leb_le; lia).
    rewrite Hk.
    destruct (facilitatorAttempt input (service k)) as [e|d] eqn:Ha.
    + specialize (IH (k + 1) (Some e) ltac:(lia)).
      destruct (attemptLoop service input total b n (k + 1) (Some e)) as [tr res].
      destruct IH as [Hpre Hfail]. split.
      * destruct Hpre as [rest Hr]. exists rest. rewrite Hr. simpl.
        f_equal. rewrite app_assoc. reflexivity.
      * intros m Hm. destruct (Hfail m Hm) as [-> Hmsg]. split; [reflexivity|].
        destruct n as [|n'].
        -- exists e. split; [|exact Hmsg]. replace total with k by lia. exact Ha.
        -- exact Hmsg.
    + split.
      * exists ((if k <? total then [Sleep (b * k)] else []) ++ scheduleFrom b total (k + 1) n)%list.
        reflexivity.
      * intros m Hm. discriminate.
Qed.

(** If every remaining attempt fails, the loop fails. *)
Lemma attemptLoop_all_fail (n : nat) : forall k last,
  Z.of_nat n = total - k + 1 ->
  (forall j, k <= j <= total -> exists e, facilitatorAttempt input (service j) = inl e) ->
  exists m, snd (attemptLoop service input total b n k last) = inl m.
Proof.
  induction n as [|n IH]; intros k last Hn Hall; simpl.
  - eexists; reflexivity.
  - assert (Hk : (k <=? total) = true) by (apply Z.leb_le; lia).
    rewrite Hk.
    destruct (Hall k ltac:(lia)) as [e He]. rewrite He.
    destruct (IH (k + 1) (Some e) ltac:(lia)) as [m Hm].
    { intros j Hj. apply Hall. lia. }
    destruct (attemptLoop service input total b n (k + 1) (Some e)) as [tr res].
    simpl in *. eexists; exact Hm.
Qed.

End LoopFacts.

Lemma requestFacilitatorDecision_configured service input config u :
  url config = Some u -> is_blank u = false ->
  requestFacilitatorDecision service input config =
  let totalAttempts := effectiveRetryAttempts config + 1 in
  let '(tr, res) :=
    attemptLoop service input totalAttempts (effectiveBackoffMs config)
      (Z.to_nat totalAttempts) 1 None in
  (tr, match res with inl m => inl m | inr d => inr (Some d) end).
Proof. intros Hu Hb. unfold requestFacilitatorDecision. rewrite Hu, Hb. reflexivity. Qed.

(** The retry loop seen from the configured entry point: the fetch/sleep
    schedule, the fetch bound, the final error and the two-attempt case. *)
Lemma requestFacilitatorDecision_retry_facts service input config u tr res :
  url config = Some u -> is_blank u = false ->
  requestFacilitatorDecision service input config = (tr, res) ->
  let totalAttempts := effectiveRetryAttempts config + 1 in
  let backoffMs := effectiveBackoffMs config in
  (tr `prefix_of` schedule backoffMs totalAttempts) /\
  (fetchCount tr <= Z.to_nat totalAttempts)%nat /\
  (0 <= effectiveRetryAttempts config -> forall m, res = inl m ->
     tr = schedule backoffMs totalAttempts /\
     exists e, facilitatorAttempt input (service totalAttempts) = inl e /\
               m = failureMessage (Some e)) /\
  (effectiveRetryAttempts config = 1 -> forall e d,
     facilitatorAttempt input (service 1) = inl e ->
     facilitatorAttempt input (service 2) = inr d ->
     tr = [Fetch 1; Sleep (backoffMs * 1); Fetch 2] /\ res = inr (Some d)).
Proof.
  intros Hu Hb Hrun totalAttempts backoffMs.
  rewrite (requestFacilitatorDecision_configured service input config u Hu Hb) in Hrun.
  cbv zeta in Hrun. fold totalAttempts backoffMs in Hrun.
  destruct (attemptLoop service input totalAttempts backoffMs (Z.to_nat totalAttempts) 1 None)
    as [tr0 res0] eqn:Hloop.
  assert (Htr : tr = tr0) by (inversion Hrun; reflexivity).
  assert (Hres : res = match res0 with inl m => inl m | inr d => inr (Some d) end)
    by (inversion Hrun; reflexivity).
  subst tr res.
  destruct (Z_le_gt_dec totalAttempts 0) as [Hle|Hgt].
  - assert (H0 : Z.to_nat totalAttempts = 0%nat) by lia.
    rewrite H0 in Hloop. simpl in Hloop.
    inversion Hloop; subst. unfold totalAttempts in *.
    split; [apply prefix_nil|]. split; [unfold fetchCount; simpl; lia|].
    split; [intros; lia|]. intros; lia.
  - pose proof (attemptLoop_schedule service input totalAttempts backoffMs
                  (Z.to_nat totalAttempts) 1 None ltac:(lia)) as Hs.
    rewrite Hloop in Hs. destruct Hs as [Hpre Hfail].
    split; [exact Hpre|].
    split.
    { pose proof (fetchCount_prefix _ _ Hpre) as Hc.
      unfold schedule in Hc. rewrite fetchCount_scheduleFrom in Hc. exact Hc. }
    split.
    + intros Hr m Hm. destruct res0 as [m0|d0]; [|discriminate].
      inversion Hm; subst m0. destruct (Hfail m eq_refl) as [Htr Hmsg].
      split; [exact Htr|].
      destruct (Z.to_nat totalAttempts) eqn:Hn; [lia|exact Hmsg].
    + intros Hr e d He Hd.
      assert (Ht : totalAttempts = 2) by (unfold totalAttempts; lia).
      rewrite Ht in Hloop. simpl in Hloop. rewrite He in Hloop. simpl in Hloop.
      replace (1 + 1) with 2 in Hloop by reflexivity.
      rewrite Hd in Hloop. inversion Hloop; subst. split; reflexivity.
Qed.

(** Claim C5. With a configured URL, [requestFacilitatorDecision] makes at
    most [retryAttempts + 1] fetches, following the schedule fetch 1, wait
    [1 * backoffMs], fetch 2, wait [2 * backoffMs], ...; when every attempt
    fails it reports the error of the last attempt; and with
    [retryAttempts = 1], a first attempt that fails and a second that
    succeeds give the second decision after exactly two fetches. *)
Theorem requestFacilitatorDecision_bounded_retries service input config u tr res :
  url config = Some u -> is_blank u = false ->
  requestFacilitatorDecision service input config = (tr, res) ->
  let totalAttempts := effectiveRetryAttempts config + 1 in
  let backoffMs := effectiveBackoffMs config in
  (tr `prefix_of` schedule backoffMs totalAttempts) /\
  (fetchCount tr <= Z.to_nat totalAttempts)%nat /\
  (0 <= effectiveRetryAttempts config -> forall m, res = inl m ->
     tr = schedule backoffMs totalAttempts /\
     exists e, facilitatorAttempt input (service totalAttempts) = inl e /\
               m = failureMessage (Some e)) /\
  (effectiveRetryAttempts config = 1 -> forall e d,
     facilitatorAttempt input (service 1) = inl e ->
     facilitatorAttempt input (service 2) = inr d ->
     tr = [Fetch 1; Sleep (backoffMs * 1); Fetch 2] /\ res = inr (Some d)).
Proof. exact (requestFacilitatorDecision_retry_facts service input config u tr res). Qed.

(** Witness of C5 on the test-suite scenario: 503, then success. *)
Lemma requestFacilitatorDecision_bounded_retries_witness :
  url (testConfig (Some 1) (Some 0)) = Some "https://facilitator.local/decide" /\
  is_blank "https://facilitator.local/decide" = false /\
  requestFacilitatorDecision failOnceService testInput (testConfig (Some 1) (Some 0)) =
    ([Fetch 1; Sleep 0; Fetch 2],
     inr (Some {| dec_targetAddress := in_targetAddress testInput;
                  dec_amountInTon := in_amountInTon testInput;
                  dec_reference := None; dec_note := None |})) /\
  (fetchCount [Fetch 1; Sleep 0; Fetch 2] <= 2)%nat.
Proof.
  split; [reflexivity|]. split; [reflexivity|]. split; [vm_compute; reflexivity|].
  exact (proj1 (proj2 (requestFacilitatorDecision_bounded_retries failOnceService testInput
           (testConfig (Some 1) (Some 0)) "https://facilitator.local/decide"
           [Fetch 1; Sleep 0; Fetch 2]
           (inr (Some {| dec_targetAddress := in_targetAddress testInput;
                         dec_amountInTon := in_amountInTon testInput;
                         dec_reference := None; dec_note := None |}))
           eq_refl eq_refl ltac:(vm_compute; reflexivity)))).
Defined.

(** C1 fails: an explicit rejection is caught by the retry loop like any
    other error, so a later acceptance wins. *)
Lemma requestFacilitatorDecision_rejection_retried :
  requestFacilitatorDecision rejectOnceService testInput (testConfig (Some 1) (Some 0)) =
    ([Fetch 1; Sleep 0; Fetch 2],
     inr (Some {| dec_targetAddress := in_targetAddress testInput;
                  dec_amountInTon := in_amountInTon testInput;
                  dec_reference := None; dec_note := None |})).
Proof. vm_compute. reflexivity. Qed.

Lemma facilitatorAttempt_jsonResponse input fields :
  facilitatorAttempt input (jsonResponse (JObj fields)) =
  let body := fields in
  let accepted := match js_field "accepted" body with Some (JBool b) => b | _ => true end in
  if negb accepted then
    inl (string_or (js_field "reason" body) "Facilitator rejected the payment request")
  else if defined_not_string (js_field "targetAddress" body) then
    inl "Facilitator response has invalid targetAddress type"
  else if defined_not_string (js_field "amountInTon" body) then
    inl "Facilitator response has invalid amountInTon type"
  else
    inr {| dec_targetAddress := string_or (js_field "targetAddress" body) (in_targetAddress input);
           dec_amountInTon := string_or (js_field "amountInTon" body) (in_amountInTon input);
           dec_reference := string_opt (js_field "reference" body);
           dec_note := string_opt (js_field "note" body) |}.
Proof. reflexivity. Qed.

(** Claim C1 (amended). An explicit rejection [{accepted: false,
    reason: X}] is one more failed attempt: it is retried while attempts
    remain. When it answers the final attempt (attempt [retryAttempts + 1])
    after every earlier attempt failed, in particular on the only attempt
    when [retryAttempts = 0], the call fails after exactly
    [retryAttempts + 1] fetches with the message
    ["x402 facilitator integration failed: " ++ X], which contains X. *)
Theorem requestFacilitatorDecision_final_rejection service input config u fields reason tr res :
  url config = Some u -> is_blank u = false ->
  0 <= effectiveRetryAttempts config ->
  (forall k, 1 <= k <= effectiveRetryAttempts config ->
     exists e, facilitatorAttempt input (service k) = inl e) ->
  service (effectiveRetryAttempts config + 1) = jsonResponse (JObj fields) ->
  js_field "accepted" fields = Some (JBool false) ->
  js_field "reason" fields = Some (JStr reason) ->
  requestFacilitatorDecision service input config = (tr, res) ->
  res = inl (failureMessage (Some reason)) /\
  str_contains (failureMessage (Some reason)) reason = true /\
  fetchCount tr = Z.to_nat (effectiveRetryAttempts config + 1).
Proof.
  intros Hu Hb Hr Hearlier Hlast Hacc Hreason Hrun.
  set (totalAttempts := effectiveRetryAttempts config + 1) in *.
  assert (Hlastfail : facilitatorAttempt input (service totalAttempts) = inl reason).
  { rewrite Hlast, facilitatorAttempt_jsonResponse. cbv zeta. rewrite Hacc, Hreason.
    reflexivity. }
  pose proof (attemptLoop_all_fail service input totalAttempts (effectiveBackoffMs config)
                (Z.to_nat totalAttempts) 1 None ltac:(lia)) as Hall.
  destruct Hall as [m Hm].
  { intros j Hj. destruct (Z.eq_dec j totalAttempts) as [->|Hne].
    - eexists; exact Hlastfail.
    - apply Hearlier. unfold totalAttempts in *. lia. }
  pose proof (requestFacilitatorDecision_retry_facts service input config u tr res Hu Hb Hrun)
    as Hc. cbv zeta in Hc. fold totalAttempts in Hc.
  destruct Hc as [_ [_ [Hfail _]]].
  rewrite (requestFacilitatorDecision_configured service input config u Hu Hb) in Hrun.
  cbv zeta in Hrun. fold totalAttempts in Hrun.
  destruct (attemptLoop service input totalAttempts (effectiveBackoffMs config)
              (Z.to_nat totalAttempts) 1 None) as [tr0 res0].
  simpl in Hm. subst res0. inversion Hrun; subst tr0 res.
  destruct (Hfail Hr m eq_refl) as [Htr [e [He Hmsg]]].
  rewrite Hlastfail in He. inversion He; subst e m.
  split; [reflexivity|]. split; [apply str_contains_suffix|].
  rewrite Htr. unfold schedule. apply fetchCount_scheduleFrom.
Qed.

Lemma requestFacilitatorDecision_final_rejection_witness :
  requestFacilitatorDecision alwaysRejectService testInput (testConfig (Some 1) (Some 0)) =
    ([Fetch 1; Sleep 0; Fetch 2], inl (failureMessage (Some "X"))) /\
  str_contains (failureMessage (Some "X")) "X" = true.
Proof.
  split; [vm_compute; reflexivity|].
  refine (proj1 (proj2 (requestFacilitatorDecision_final_rejection alwaysRejectService testInput
            (testConfig (Some 1) (Some 0)) "https://facilitator.local/decide"
            [("accepted", JBool false); ("reason", JStr "X")] "X"
            [Fetch 1; Sleep 0; Fetch 2] (inl (failureMessage (Some "X")))
            eq_refl eq_refl _ _ eq_refl eq_refl eq_refl _))).
  - vm_compute. discriminate.
  - intros k _. exists "X". reflexivity.
  - vm_compute. reflexivity.
Defined.

(** C10 fails: with [accepted] absent, a present non-string [amountInTon]
    still makes the call fail. *)
Lemma requestFacilitatorDecision_absent_accepted_can_fail :
  requestFacilitatorDecision numericAmountService testInput (testConfig None None) =
    ([Fetch 1],
     inl (failureMessage (Some "Facilitator response has invalid amountInTon type"))).
Proof. vm_compute. reflexivity. Qed.

(** Claim C10 (amended). With a configured URL and [retryAttempts >= 0],
    if the first response is HTTP-ok, its body is empty or valid JSON, its
    [accepted] field is absent or not a boolean, and its [targetAddress]
    and [amountInTon] fields are each absent or strings, then the request
    counts as accepted: the decision is returned after one fetch, with the
    caller's target and amount for absent fields. *)
Theorem requestFacilitatorDecision_default_accept service input config u st raw parsed v :
  url config = Some u -> is_blank u = false ->
  0 <= effectiveRetryAttempts config ->
  service 1 = FetchResponse true st raw parsed ->
  readBody raw parsed = inr v ->
  (forall b, js_field "accepted" (parseFacilitatorJson v) <> Some (JBool b)) ->
  defined_not_string (js_field "targetAddress" (parseFacilitatorJson v)) = false ->
  defined_not_string (js_field "amountInTon" (parseFacilitatorJson v)) = false ->
  requestFacilitatorDecision service input config =
    ([Fetch 1],
     inr (Some {| dec_targetAddress := string_or (js_field "targetAddress" (parseFacilitatorJson v))
                                         (in_targetAddress input);
                  dec_amountInTon := string_or (js_field "amountInTon" (parseFacilitatorJson v))
                                       (in_amountInTon input);
                  dec_reference := string_opt (js_field "reference" (parseFacilitatorJson v));
                  dec_note := string_opt (js_field "note" (parseFacilitatorJson v)) |})).
Proof.
  intros Hu Hb Hr Hs Hread Hacc Htarget Hamount.
  rewrite (requestFacilitatorDecision_configured service input config u Hu Hb).
  cbv zeta.
  destruct (Z.to_nat (effectiveRetryAttempts config + 1)) as [|n] eqn:En; [lia|].
  cbn [attemptLoop].
  assert (H1 : (1 <=? effectiveRetryAttempts config + 1) = true) by (apply Z.leb_le; lia).
  rewrite H1, Hs. unfold facilitatorAttempt. rewrite Hread. cbv zeta.
  destruct (js_field "accepted" (parseFacilitatorJson v)) as [a|] eqn:Ha.
  - destruct a; try (exfalso; eapply Hacc; reflexivity);
      simpl; rewrite Htarget, Hamount; reflexivity.
  - simpl. rewrite Htarget, Hamount. reflexivity.
Qed.

Lemma requestFacilitatorDecision_default_accept_witness :
  requestFacilitatorDecision stringAcceptedService testInput (testConfig None None) =
    ([Fetch 1],
     inr (Some {| dec_targetAddress := in_targetAddress testInput;
                  dec_amountInTon := in_amountInTon testInput;
                  dec_reference := None; dec_note := Some "n" |})).
Proof.
  exact (requestFacilitatorDecision_default_accept stringAcceptedService testInput
           (testConfig None None) "https://facilitator.local/decide" 200
           (JSON_stringify (JObj [("accepted", JStr "yes"); ("note", JStr "n")]))
           (inr (JObj [("accepted", JStr "yes"); ("note", JStr "n")]))
           (JObj [("accepted", JStr "yes"); ("note", JStr "n")])
           eq_refl eq_refl ltac:(vm_compute; discriminate) eq_refl eq_refl
           ltac:(intros b; vm_compute; discriminate) eq_refl eq_refl).
Defined.

(** ** Envelope ledger *)

Import Broker.

Lemma with_spent_eta (e : EnvelopeRecord) : with_spent e (spentInWindowNano e) = e.
Proof. destruct e; reflexivity. Qed.

Lemma with_spent_twice (e : EnvelopeRecord) s1 s2 :
  with_spent (with_spent e s1) s2 = with_spent e s2.
Proof. reflexivity. Qed.

Lemma normalizeWindow_total e now :
  totalBudgetNano (normalizeWindow e now) = totalBudgetNano e.
Proof. unfold normalizeWindow. destruct (_ <=? _); reflexivity. Qed.

Lemma normalizeWindow_agents e now :
  agentIds (normalizeWindow e now) = agentIds e.
Proof. unfold normalizeWindow. destruct (_ <=? _); reflexivity. Qed.

Lemma normalizeWindow_period e now :
  periodSeconds (normalizeWindow e now) = periodSeconds e.
Proof. unfold normalizeWindow. destruct (_ <=? _); reflexivity. Qed.

Lemma normalizeWindow_no_rollover e now :
  now < windowStartedAt e + periodSeconds e -> normalizeWindow e now = e.
Proof.
  intros Hlt. unfold normalizeWindow.
  assert (Hn : (windowStartedAt e + periodSeconds e <=? now) = false) by (apply Z.leb_gt; lia).
  rewrite Hn. reflexivity.
Qed.

Lemma normalizeWindow_bounds e now :
  0 <= spentInWindowNano e <= totalBudgetNano e ->
  0 <= spentInWindowNano (normalizeWindow e now) <= totalBudgetNano (normalizeWindow e now).
Proof. unfold normalizeWindow. destruct (_ <=? _); simpl; lia. Qed.

Lemma getEnvelopeAllowance_found st envelopeId now e :
  st !! envelopeId = Some e ->
  getEnvelopeAllowance st envelopeId now =
    (<[envelopeId := normalizeWindow e now]> st,
     inr (normalizeWindow e now,
          totalBudgetNano e - spentInWindowNano (normalizeWindow e now))).
Proof.
  intros He. unfold getEnvelopeAllowance. rewrite He, normalizeWindow_total. reflexivity.
Qed.

Lemma remainingAt_found st envelopeId now e :
  st !! envelopeId = Some e ->
  remainingAt st envelopeId now =
    Some (totalBudgetNano e - spentInWindowNano (normalizeWindow e now)).
Proof. intros He. unfold remainingAt. rewrite (getEnvelopeAllowance_found _ _ _ _ He). reflexivity. Qed.

Lemma budget_inv_insert st k e :
  0 <= spentInWindowNano e <= totalBudgetNano e -> budget_inv st ->
  budget_inv (<[k := e]> st).
Proof. intros He Hst. unfold budget_inv. apply map_Forall_insert_2; assumption. Qed.

Lemma budget_inv_lookup st k e :
  budget_inv st -> st !! k = Some e -> 0 <= spentInWindowNano e <= totalBudgetNano e.
Proof. intros Hst He. exact (map_Forall_lookup_1 _ _ _ _ Hst He). Qed.

Lemma budget_inv_allowance st envelopeId now :
  budget_inv st -> budget_inv (fst (getEnvelopeAllowance st envelopeId now)).
Proof.
  intros Hst. unfold getEnvelopeAllowance.
  destruct (st !! envelopeId) as [e|] eqn:He; simpl; [|exact Hst].
  apply budget_inv_insert; [|exact Hst].
  apply normalizeWindow_bounds. exact (budget_inv_lookup _ _ _ Hst He).
Qed.

Lemma budget_inv_applyOp st op : budget_inv st -> budget_inv (applyOp st op).
Proof.
  intros Hst. destruct op as [i t p n|i a|i n|i a amt n|i amt]; simpl.
  - unfold createEnvelope.
    destruct (is_blank i); [exact Hst|].
    destruct (t <=? 0) eqn:Ht; [exact Hst|].
    destruct (p <=? 0); [exact Hst|].
    destruct (st !! i); simpl; [exact Hst|].
    apply budget_inv_insert; [simpl; lia|exact Hst].
  - unfold assignAgentToEnvelope.
    destruct (st !! i) as [e|] eqn:He; [|exact Hst].
    destruct (is_blank a); [exact Hst|].
    destruct (existsb _ _); [exact Hst|]. simpl.
    apply budget_inv_insert; [|exact Hst]. simpl.
    exact (budget_inv_lookup _ _ _ Hst He).
  - apply budget_inv_allowance. exact Hst.
  - unfold reserveEnvelopeBudget.
    destruct (amt <=? 0) eqn:Ha; [exact Hst|].
    destruct (st !! i) as [e|] eqn:He.
    + rewrite (getEnvelopeAllowance_found _ _ _ _ He).
      pose proof (normalizeWindow_bounds e n (budget_inv_lookup _ _ _ Hst He)) as Hb.
      rewrite normalizeWindow_total in Hb.
      assert (Hst1 : budget_inv (<[i := normalizeWindow e n]> st)).
      { apply budget_inv_insert; [rewrite normalizeWindow_total; exact Hb|exact Hst]. }
      destruct (negb _); [exact Hst1|].
      destruct (_ <? amt) eqn:Hlt; [exact Hst1|]. simpl.
      apply budget_inv_insert; [|exact Hst1]. simpl.
      rewrite normalizeWindow_total. apply Z.ltb_ge in Hlt. apply Z.leb_gt in Ha. lia.
    + unfold getEnvelopeAllowance. rewrite He. exact Hst.
  - unfold rollbackEnvelopeReservation.
    destruct (amt <=? 0) eqn:Ha; [exact Hst|].
    destruct (st !! i) as [e|] eqn:He; [|exact Hst].
    destruct (_ <? 0) eqn:Hlt; [exact Hst|]. simpl.
    apply budget_inv_insert; [|exact Hst]. simpl.
    pose proof (budget_inv_lookup _ _ _ Hst He).
    apply Z.ltb_ge in Hlt. apply Z.leb_gt in Ha. lia.
Qed.

Lemma budget_inv_runOps ops : forall st, budget_inv st -> budget_inv (runOps st ops).
Proof.
  induction ops as [|op ops IH]; intros st Hst; simpl; [exact Hst|].
  apply IH. apply budget_inv_applyOp. exact Hst.
Qed.

(** A successful reservation stores the normalized envelope with [spent]
    increased by the amount. *)
Lemma reserveEnvelopeBudget_success st envelopeId agentId amountNano now e :
  st !! envelopeId = Some e ->
  existsb (String.eqb agentId) (agentIds e) = true ->
  0 < amountNano ->
  amountNano <= totalBudgetNano e - spentInWindowNano (normalizeWindow e now) ->
  let normalized := normalizeWindow e now in
  let updated := with_spent normalized (spentInWindowNano normalized + amountNano) in
  reserveEnvelopeBudget st envelopeId agentId amountNano now =
    (<[envelopeId := updated]> (<[envelopeId := normalized]> st),
     inr (updated, totalBudgetNano e - (spentInWindowNano normalized + amountNano))).
Proof.
  intros He Hag Hpos Hle normalized updated.
  unfold reserveEnvelopeBudget.
  assert (Hp : (amountNano <=? 0) = false) by (apply Z.leb_gt; lia). rewrite Hp.
  rewrite (getEnvelopeAllowance_found _ _ _ _ He).
  rewrite normalizeWindow_agents, Hag. simpl negb. cbv iota.
  assert (Hl : (totalBudgetNano e - spentInWindowNano (normalizeWindow e now) <? amountNano) = false)
    by (apply Z.ltb_ge; lia).
  rewrite Hl. unfold updated, normalized. simpl. rewrite normalizeWindow_total. reflexivity.
Qed.

(** Rolling back the amount just reserved leaves exactly the state of an
    allowance read at the reservation time. *)
Lemma rollback_after_reserve st envelopeId agentId amountNano now e :
  budget_inv st ->
  st !! envelopeId = Some e ->
  existsb (String.eqb agentId) (agentIds e) = true ->
  0 < amountNano ->
  amountNano <= totalBudgetNano e - spentInWindowNano (normalizeWindow e now) ->
  rollbackEnvelopeReservation (fst (reserveEnvelopeBudget st envelopeId agentId amountNano now))
    envelopeId amountNano =
  (fst (getEnvelopeAllowance st envelopeId now), inr (normalizeWindow e now)).
Proof.
  intros Hst He Hag Hpos Hle.
  rewrite (reserveEnvelopeBudget_success st envelopeId agentId amountNano now e He Hag Hpos Hle).
  rewrite (getEnvelopeAllowance_found _ _ _ _ He). simpl.
  unfold rollbackEnvelopeReservation.
  assert (Hp : (amountNano <=? 0) = false) by (apply Z.leb_gt; lia). rewrite Hp.
  rewrite lookup_insert_eq. simpl.
  pose proof (normalizeWindow_bounds e now (budget_inv_lookup _ _ _ Hst He)) as Hb.
  assert (Hn : (spentInWindowNano (normalizeWindow e now) + amountNano - amountNano <? 0) = false)
    by (apply Z.ltb_ge; lia).
  rewrite Hn.
  replace (spentInWindowNano (normalizeWindow e now) + amountNano - amountNano)
    with (spentInWindowNano (normalizeWindow e now)) by lia.
  rewrite with_spent_twice, with_spent_eta, !insert_insert_eq. reflexivity.
Qed.

(** C3 fails as stated: a reservation over the remaining allowance does
    fail with [BudgetExceeded], but the lazy window reset done by its
    allowance read is kept in the state. *)
Lemma reserve_over_limit_keeps_window_reset :
  reserveEnvelopeBudget dailyScenario "daily" "agent-a" 20 111 =
    (fst (getEnvelopeAllowance dailyScenario "daily" 111),
     inl (EnvelopeLimitExceeded "daily" 10 20)) /\
  fst (reserveEnvelopeBudget dailyScenario "daily" "agent-a" 20 111) <> dailyScenario.
Proof.
  split; [vm_compute; reflexivity|].
  intros Heq. apply (f_equal (fun st : BrokerState => st !! "daily")) in Heq.
  vm_compute in Heq. discriminate.
Qed.

(** Claim C3 (amended). Every sequence of create, assign, allowance,
    reserve and rollback operations preserves [0 <= spent <= total] for
    every envelope; and a reservation by an assigned agent whose amount
    exceeds the remaining allowance (computed after the window reset)
    fails with [BudgetExceeded] and leaves exactly the state an allowance
    read at the same time leaves: nothing changes except the lazy window
    reset when one is due. *)
Theorem envelope_budget_invariant :
  (forall (st : BrokerState) ops, budget_inv st -> budget_inv (runOps st ops)) /\
  (forall (st : BrokerState) envelopeId agentId amountNano now e remaining,
     budget_inv st ->
     st !! envelopeId = Some e ->
     existsb (String.eqb agentId) (agentIds e) = true ->
     remainingAt st envelopeId now = Some remaining ->
     remaining < amountNano ->
     reserveEnvelopeBudget st envelopeId agentId amountNano now =
       (fst (getEnvelopeAllowance st envelopeId now),
        inl (EnvelopeLimitExceeded envelopeId remaining amountNano)) /\
     errorKind (EnvelopeLimitExceeded envelopeId remaining amountNano) = BudgetExceeded).
Proof.
  split.
  - intros st ops Hst. exact (budget_inv_runOps ops st Hst).
  - intros st envelopeId agentId amountNano now e remaining Hst He Hag Hrem Hlt.
    rewrite (remainingAt_found _ _ _ _ He) in Hrem. injection Hrem as Hrem.
    pose proof (normalizeWindow_bounds e now (budget_inv_lookup _ _ _ Hst He)) as Hb.
    rewrite normalizeWindow_total in Hb.
    split; [|reflexivity].
    unfold reserveEnvelopeBudget.
    assert (Hp : (amountNano <=? 0) = false) by (apply Z.leb_gt; lia). rewrite Hp.
    rewrite (getEnvelopeAllowance_found _ _ _ _ He).
    rewrite normalizeWindow_agents, Hag. simpl negb. cbv iota.
    rewrite Hrem.
    assert (Hl : (remaining <? amountNano) = true) by (apply Z.ltb_lt; lia).
    rewrite Hl. reflexivity.
Qed.

Lemma envelope_budget_invariant_witness :
  budget_inv (runOps emptyBrokerState
                [OpCreate "daily" 10 10 100; OpAssign "daily" "agent-a";
                 OpReserve "daily" "agent-a" 8 105; OpRollback "daily" 3]) /\
  reserveEnvelopeBudget dailyScenario "daily" "agent-a" 20 111 =
    (fst (getEnvelopeAllowance dailyScenario "daily" 111),
     inl (EnvelopeLimitExceeded "daily" 10 20)).
Proof.
  split.
  - apply (proj1 envelope_budget_invariant). apply map_Forall_empty.
  - refine (proj1 (proj2 envelope_budget_invariant dailyScenario "daily" "agent-a" 20 111
             {| id := "daily"; totalBudgetNano := 10; spentInWindowNano := 8;
                periodSeconds := 10; windowStartedAt := 100; createdAt := 100;
                agentIds := ["agent-a"] |} 10 _ _ _ _ _)).
    + apply (proj1 envelope_budget_invariant). apply map_Forall_empty.
    + vm_compute. reflexivity.
    + vm_compute. reflexivity.
    + vm_compute. reflexivity.
    + lia.
Defined.

(** Claim C6. For an envelope of a state satisfying the ledger invariant,
    an assigned agent and an amount [0 < amount <= remaining], reserving
    and then rolling back that amount both succeed and leave exactly the
    state of an allowance read at the reservation time; so the remaining
    allowance is its pre-reservation value at any time before the next
    window rollover. *)
Theorem reserve_then_rollback_restores_remaining (st : BrokerState) envelopeId agentId
    amountNano now e remaining :
  budget_inv st ->
  st !! envelopeId = Some e ->
  existsb (String.eqb agentId) (agentIds e) = true ->
  remainingAt st envelopeId now = Some remaining ->
  0 < amountNano -> amountNano <= remaining ->
  exists st1 reserved st2 restored,
    reserveEnvelopeBudget st envelopeId agentId amountNano now = (st1, inr reserved) /\
    rollbackEnvelopeReservation st1 envelopeId amountNano = (st2, inr restored) /\
    st2 = fst (getEnvelopeAllowance st envelopeId now) /\
    forall now', now' < windowStartedAt (normalizeWindow e now) + periodSeconds e ->
      remainingAt st2 envelopeId now' = Some remaining.
Proof.
  intros Hst He Hag Hrem Hpos Hle.
  rewrite (remainingAt_found _ _ _ _ He) in Hrem. injection Hrem as Hrem.
  pose proof (reserveEnvelopeBudget_success st envelopeId agentId amountNano now e
                He Hag Hpos ltac:(lia)) as Hres.
  cbv zeta in Hres.
  pose proof (rollback_after_reserve st envelopeId agentId amountNano now e
                Hst He Hag Hpos ltac:(lia)) as Hrb.
  rewrite Hres in Hrb |- *. simpl in Hrb.
  do 4 eexists. split; [reflexivity|]. split; [exact Hrb|]. split; [reflexivity|].
  intros now' Hnow'.
  rewrite (getEnvelopeAllowance_found _ _ _ _ He). simpl.
  unfold remainingAt, getEnvelopeAllowance. rewrite lookup_insert_eq. simpl.
  rewrite (normalizeWindow_no_rollover (normalizeWindow e now) now')
    by (rewrite normalizeWindow_period; exact Hnow').
  rewrite normalizeWindow_total. f_equal. exact Hrem.
Qed.

Lemma reserve_then_rollback_restores_remaining_witness :
  exists st1 reserved st2 restored,
    reserveEnvelopeBudget dailyScenario "daily" "agent-a" 2 106 = (st1, inr reserved) /\
    rollbackEnvelopeReservation st1 "daily" 2 = (st2, inr restored) /\
    st2 = fst (getEnvelopeAllowance dailyScenario "daily" 106) /\
    forall now', now' < 100 + 10 -> remainingAt st2 "daily" now' = Some 2.
Proof.
  exact (reserve_then_rollback_restores_remaining dailyScenario "daily" "agent-a" 2 106
           {| id := "daily"; totalBudgetNano := 10; spentInWindowNano := 8;
              periodSeconds := 10; windowStartedAt := 100; createdAt := 100;
              agentIds := ["agent-a"] |} 2
           ltac:(apply budget_inv_runOps; apply map_Forall_empty)
           ltac:(vm_compute; reflexivity) ltac:(vm_compute; reflexivity)
           ltac:(vm_compute; reflexivity) ltac:(lia) ltac:(lia)).
Defined.

(** Claim C7. The window of an envelope is reset (spent set to 0, window
    start set to now, nothing else changed) exactly when
    [now >= windowStartedAt + periodSeconds]; the rule is applied, and the
    result stored, by every allowance read and by every reservation; and in
    the test scenario (total 10, 10 s window created at t = 100, 8 spent at
    t = 105) an allowance read at t = 111 reports 10. *)
Theorem envelope_window_reset :
  (forall e now, windowStartedAt e + periodSeconds e <= now ->
     normalizeWindow e now = with_spent {| id := id e; totalBudgetNano := totalBudgetNano e;
                                          spentInWindowNano := spentInWindowNano e;
                                          periodSeconds := periodSeconds e;
                                          windowStartedAt := now; createdAt := createdAt e;
                                          agentIds := agentIds e |} 0) /\
  (forall e now, now < windowStartedAt e + periodSeconds e -> normalizeWindow e now = e) /\
  (forall (st : BrokerState) envelopeId now e,
     st !! envelopeId = Some e ->
     fst (getEnvelopeAllowance st envelopeId now) !! envelopeId = Some (normalizeWindow e now) /\
     remainingAt st envelopeId now =
       Some (totalBudgetNano e - spentInWindowNano (normalizeWindow e now))) /\
  (forall (st : BrokerState) envelopeId agentId amountNano now e,
     st !! envelopeId = Some e -> 0 < amountNano ->
     fst (reserveEnvelopeBudget st envelopeId agentId amountNano now) !! envelopeId
       = Some (normalizeWindow e now) \/
     fst (reserveEnvelopeBudget st envelopeId agentId amountNano now) !! envelopeId
       = Some (with_spent (normalizeWindow e now)
                 (spentInWindowNano (normalizeWindow e now) + amountNano))) /\
  remainingAt dailyScenario "daily" 111 = Some 10.
Proof.
  split; [|split; [|split; [|split]]].
  - intros e now Hle. unfold normalizeWindow.
    assert (Hn : (windowStartedAt e + periodSeconds e <=? now) = true) by (apply Z.leb_le; lia).
    rewrite Hn. reflexivity.
  - exact normalizeWindow_no_rollover.
  - intros st envelopeId now e He.
    rewrite (getEnvelopeAllowance_found _ _ _ _ He), (remainingAt_found _ _ _ _ He). simpl.
    rewrite lookup_insert_eq. split; reflexivity.
  - intros st envelopeId agentId amountNano now e He Hpos.
    unfold reserveEnvelopeBudget.
    assert (Hp : (amountNano <=? 0) = false) by (apply Z.leb_gt; lia). rewrite Hp.
    rewrite (getEnvelopeAllowance_found _ _ _ _ He).
    destruct (negb _); [left; simpl; apply lookup_insert_eq|].
    destruct (_ <? amountNano); [left; simpl; apply lookup_insert_eq|].
    right. simpl. apply lookup_insert_eq.
  - vm_compute. reflexivity.
Qed.

Lemma envelope_window_reset_witness :
  normalizeWindow {| id := "daily"; totalBudgetNano := 10; spentInWindowNano := 8;
                     periodSeconds := 10; windowStartedAt := 100; createdAt := 100;
                     agentIds := ["agent-a"] |} 111 =
  {| id := "daily"; totalBudgetNano := 10; spentInWindowNano := 0;
     periodSeconds := 10; windowStartedAt := 111; createdAt := 100;
     agentIds := ["agent-a"] |} /\
  remainingAt dailyScenario "daily" 105 = Some 2.
Proof.
  split.
  - exact (proj1 envelope_window_reset
             {| id := "daily"; totalBudgetNano := 10; spentInWindowNano := 8;
                periodSeconds := 10; windowStartedAt := 100; createdAt := 100;
                agentIds := ["agent-a"] |} 111 ltac:(simpl; lia)).
  - refine (proj2 ((proj1 (proj2 (proj2 envelope_window_reset))) dailyScenario "daily" 105
             {| id := "daily"; totalBudgetNano := 10; spentInWindowNano := 8;
                periodSeconds := 10; windowStartedAt := 100; createdAt := 100;
                agentIds := ["agent-a"] |} _)).
    vm_compute. reflexivity.
Defined.

(** ** Envelope-backed payments *)

Import Coordinator.

(** Claim C4. In [execute_envelope_payment], the chain submission is only
    attempted after a successful reservation of the payment amount; and
    when the submission fails (on a ledger satisfying its invariant), the
    reservation of exactly that amount is rolled back before the error is
    rethrown, leaving the broker state of an allowance read at the
    reservation time: spent is not left incremented. *)
Theorem execute_envelope_payment_rolls_back (st : BrokerState) envelopeId agentId prepared
    submission reserveNow allowanceNow st' trace result :
  execute_envelope_payment st envelopeId agentId prepared submission reserveNow allowanceNow
    = (st', trace, result) ->
  (In SubmissionAttempted trace ->
     exists amountNano rest reserved,
       prepared = inr amountNano /\
       trace = Reserved amountNano :: SubmissionAttempted :: rest /\
       snd (reserveEnvelopeBudget st envelopeId agentId amountNano reserveNow) = inr reserved) /\
  (forall amountNano message,
     budget_inv st -> prepared = inr amountNano -> submission = inl message ->
     In SubmissionAttempted trace ->
     trace = [Reserved amountNano; SubmissionAttempted; RolledBack amountNano] /\
     st' = fst (getEnvelopeAllowance st envelopeId reserveNow) /\
     result = inl (SubmissionFailed message)).
Proof.
  intros Hrun. unfold execute_envelope_payment in Hrun.
  destruct prepared as [pm|amountNano].
  { inversion Hrun; subst. split; [intros []|]. intros ? ? ? Hp. discriminate. }
  destruct (reserveEnvelopeBudget st envelopeId agentId amountNano reserveNow)
    as [state1 [err|reserved]] eqn:Hres.
  { inversion Hrun; subst. split; [intros []|]. intros ? ? ? ? ? []. }
  split.
  { intros _. exists amountNano. unfold rollbackAndRethrow in Hrun.
    destruct submission as [m|[]].
    - destruct (rollbackEnvelopeReservation state1 envelopeId amountNano) as [state2 [e2|u2]];
        injection Hrun as <- <- <-; do 2 eexists; (split; [reflexivity|]);
        (split; [reflexivity|]); rewrite Hres; reflexivity.
    - destruct (getEnvelopeAllowance state1 envelopeId allowanceNow) as [state2 [e2|[e2 r2]]];
        [destruct (rollbackEnvelopeReservation state2 envelopeId amountNano) as [state3 [e3|u3]]|];
        injection Hrun as <- <- <-; do 2 eexists; (split; [reflexivity|]);
        (split; [reflexivity|]); rewrite Hres; reflexivity. }
  intros amount message Hst Hp Hs _. injection Hp as <-. subst submission.
  (* the reservation succeeded, so the envelope exists and the agent is assigned *)
  unfold reserveEnvelopeBudget in Hres.
  destruct (amountNano <=? 0) eqn:Hpos; [discriminate|].
  destruct (st !! envelopeId) as [e|] eqn:He.
  2:{ unfold getEnvelopeAllowance in Hres. rewrite He in Hres. discriminate. }
  rewrite (getEnvelopeAllowance_found _ _ _ _ He) in Hres.
  destruct (negb (existsb (String.eqb agentId) (agentIds (normalizeWindow e reserveNow))))
    eqn:Hag; [discriminate|].
  destruct (_ <? amountNano) eqn:Hlt; [discriminate|].
  apply Bool.negb_false_iff in Hag. rewrite normalizeWindow_agents in Hag.
  apply Z.leb_gt in Hpos. apply Z.ltb_ge in Hlt.
  pose proof (rollback_after_reserve st envelopeId agentId amountNano reserveNow e
                Hst He Hag Hpos Hlt) as Hrb.
  rewrite (reserveEnvelopeBudget_success st envelopeId agentId amountNano reserveNow e
             He Hag Hpos Hlt) in Hrb.
  injection Hres as <- _. simpl in Hrb.
  unfold rollbackAndRethrow in Hrun. rewrite Hrb in Hrun. injection Hrun as <- <- <-.
  split; [reflexivity|]. split; reflexivity.
Qed.

Lemma execute_envelope_payment_rolls_back_witness :
  execute_envelope_payment dailyScenario "daily" "agent-a" (inr 2) (inl "wallet not deployed")
    106 107 =
    (fst (getEnvelopeAllowance dailyScenario "daily" 106),
     [Reserved 2; SubmissionAttempted; RolledBack 2],
     inl (SubmissionFailed "wallet not deployed")) /\
  (In SubmissionAttempted [Reserved 2; SubmissionAttempted; RolledBack 2] ->
     exists amountNano rest reserved,
       (inr 2 : string + Z) = inr amountNano /\
       [Reserved 2; SubmissionAttempted; RolledBack 2] =
         Reserved amountNano :: SubmissionAttempted :: rest /\
       snd (reserveEnvelopeBudget dailyScenario "daily" "agent-a" amountNano 106) = inr reserved) /\
  (forall amountNano message,
     budget_inv dailyScenario -> (inr 2 : string + Z) = inr amountNano ->
     (inl "wallet not deployed" : string + unit) = inl message ->
     In SubmissionAttempted [Reserved 2; SubmissionAttempted; RolledBack 2] ->
     [Reserved 2; SubmissionAttempted; RolledBack 2] =
       [Reserved amountNano; SubmissionAttempted; RolledBack amountNano] /\
     fst (getEnvelopeAllowance dailyScenario "daily" 106) =
       fst (getEnvelopeAllowance dailyScenario "daily" 106) /\
     (inl (SubmissionFailed "wallet not deployed") : CoordinatorError + Z) =
       inl (SubmissionFailed message)).
Proof.
  assert (Hrun : execute_envelope_payment dailyScenario "daily" "agent-a" (inr 2)
                   (inl "wallet not deployed") 106 107 =
                 (fst (getEnvelopeAllowance dailyScenario "daily" 106),
                  [Reserved 2; SubmissionAttempted; RolledBack 2],
                  inl (SubmissionFailed "wallet not deployed")))
    by (vm_compute; reflexivity).
  split; [exact Hrun|].
  exact (execute_envelope_payment_rolls_back dailyScenario "daily" "agent-a"
           (inr 2) (inl "wallet not deployed") 106 107 _ _ _ Hrun).
Defined.

(** ** Approval bot *)

Import ApprovalBot.

Lemma claimScan_none c a now (l : list Audit.RequestAuditRecord) :
  Audit.claimScan c a now l = None -> Forall (fun r => Audit.claimable c a r = false) l.
Proof.
  induction l as [|r rs IH]; simpl; intros H; [constructor|].
  destruct (Audit.claimable c a r) eqn:Hc; [discriminate|].
  destruct (Audit.claimScan c a now rs) as [[? ?]|]; [discriminate|].
  constructor; auto.
Qed.

Lemma claimScan_some c a now (l l' : list Audit.RequestAuditRecord) rid :
  Audit.claimScan c a now l = Some (l', rid) ->
  exists pre r post, l = (pre ++ r :: post)%list /\
    Forall (fun x => Audit.claimable c a x = false) pre /\
    Audit.claimable c a r = true /\
    l' = (pre ++ Audit.markClaimed a now r :: post)%list /\ rid = Audit.requestId r.
Proof.
  revert l' rid. induction l as [|r rs IH]; simpl; intros l' rid H; [discriminate|].
  destruct (Audit.claimable c a r) eqn:Hc.
  - injection H as <- <-. exists [], r, rs. repeat split; auto.
  - destruct (Audit.claimScan c a now rs) as [[rs' rid']|] eqn:Hs; [|discriminate].
    injection H as <- <-.
    destruct (IH rs' rid' eq_refl) as (pre & x & post & -> & Hpre & Hx & -> & ->).
    exists (r :: pre), x, post. repeat split; auto.
Qed.

Lemma claimable_iff c a r :
  Audit.consumedByApprovalId r <> Some "" ->
  Audit.claimable c a r = true <-> unconsumedMatch c a r.
Proof.
  intros Hne. unfold Audit.claimable, unconsumedMatch, Audit.truthy.
  rewrite !Bool.andb_true_iff, !String.eqb_eq.
  destruct (Audit.consumedByApprovalId r) as [s|].
  - destruct (String.eqb_spec s "") as [->|Hs]; [congruence|]. simpl.
    split; intros; intuition congruence.
  - simpl. tauto.
Qed.

(** Claim C8. [claimMatchingRequestId] claims, among the audit records
    with the approval's contract address, target address and exact amount
    that are not yet consumed, the most recently created one (the last in
    the log) and no other: it is marked [approval_pending] with a back-link
    to the approval id, its [requestId] is returned, and every other record,
    before or after it, is unchanged. When no record matches, the log is
    unchanged and no [requestId] is returned. (The consumed ids present in
    the log are approval ids, never the empty string.) *)
Theorem claimMatchingRequestId_claims_latest c a now records records' res :
  Forall (fun r => Audit.consumedByApprovalId r <> Some "") records ->
  Audit.claimMatchingRequestId c a now records = (records', res) ->
  (res = None /\ records' = records /\ Forall (fun r => ~ unconsumedMatch c a r) records) \/
  (exists older r newer,
     records = (older ++ r :: newer)%list /\
     unconsumedMatch c a r /\
     Forall (fun x => ~ unconsumedMatch c a x) newer /\
     records' = (older ++ Audit.markClaimed a now r :: newer)%list /\
     res = Some (Audit.requestId r) /\
     Audit.consumedByApprovalId (Audit.markClaimed a now r) = Some (id a) /\
     Audit.status (Audit.markClaimed a now r) = Audit.ReqApprovalPending).
Proof.
  intros Hwf Hc. unfold Audit.claimMatchingRequestId in Hc.
  destruct (Audit.claimScan c a now (rev records)) as [[l' rid]|] eqn:Hs.
  - injection Hc as <- <-. right.
    destruct (claimScan_some _ _ _ _ _ _ Hs) as (pre & r & post & Hrev & Hpre & Hr & -> & ->).
    assert (Hrec : records = (rev post ++ r :: rev pre)%list).
    { rewrite <- (rev_involutive records), Hrev, rev_app_distr. simpl.
      rewrite <- app_assoc. reflexivity. }
    assert (Hwf' := Hwf). rewrite Hrec in Hwf'.
    apply Forall_app in Hwf' as [_ Hwf']. inversion Hwf' as [|? ? Hwr Hwpre]; subst.
    exists (rev post), r, (rev pre).
    split; [first [reflexivity | exact Hrec]|].
    split; [apply (claimable_iff c a r Hwr); exact Hr|].
    split; [|split; [|split; [reflexivity|split; reflexivity]]].
    + apply Forall_rev in Hpre. rewrite Forall_forall in Hpre, Hwpre |- *.
      intros x Hx Hm. apply (claimable_iff c a x (Hwpre x Hx)) in Hm.
      rewrite (Hpre x) in Hm; [discriminate|]. exact Hx.
    + rewrite rev_app_distr. simpl. rewrite <- app_assoc. reflexivity.
  - injection Hc as <- <-. left. split; [reflexivity|]. split; [reflexivity|].
    apply claimScan_none, Forall_rev in Hs. rewrite rev_involutive in Hs.
    rewrite Forall_forall in Hs, Hwf |- *. intros x Hx Hm.
    apply (claimable_iff c a x (Hwf x Hx)) in Hm. rewrite Hs in Hm; [discriminate|exact Hx].
Qed.

Lemma claimMatchingRequestId_claims_latest_witness :
  Forall (fun r => Audit.consumedByApprovalId r <> Some "") auditLog /\
  ((Some "req-2" = None /\
    [auditRecord "req-1" None; Audit.markClaimed sampleApproval 9 (auditRecord "req-2" None);
     auditRecord "req-3" (Some "5-00aa11bb")] = auditLog /\
    Forall (fun r => ~ unconsumedMatch "EQC-contract" sampleApproval r) auditLog) \/
   (exists older r newer,
     auditLog = (older ++ r :: newer)%list /\
     unconsumedMatch "EQC-contract" sampleApproval r /\
     Forall (fun x => ~ unconsumedMatch "EQC-contract" sampleApproval x) newer /\
     [auditRecord "req-1" None; Audit.markClaimed sampleApproval 9 (auditRecord "req-2" None);
      auditRecord "req-3" (Some "5-00aa11bb")] =
       (older ++ Audit.markClaimed sampleApproval 9 r :: newer)%list /\
     Some "req-2" = Some (Audit.requestId r) /\
     Audit.consumedByApprovalId (Audit.markClaimed sampleApproval 9 r) = Some (id sampleApproval) /\
     Audit.status (Audit.markClaimed sampleApproval 9 r) = Audit.ReqApprovalPending)).
Proof.
  assert (Hwf : Forall (fun r => Audit.consumedByApprovalId r <> Some "") auditLog)
    by (repeat constructor; simpl; congruence).
  split; [exact Hwf|].
  exact (claimMatchingRequestId_claims_latest "EQC-contract" sampleApproval 9 auditLog _ _
           Hwf ltac:(vm_compute; reflexivity)).
Defined.

Lemma restoredIds_app o1 o2 : restoredIds (o1 ++ o2) = (restoredIds o1 ++ restoredIds o2)%list.
Proof. unfold restoredIds. apply flat_map_app. Qed.

Lemma notifiedIds_app o1 o2 : notifiedIds (o1 ++ o2) = (notifiedIds o1 ++ notifiedIds o2)%list.
Proof. unfold notifiedIds. apply flat_map_app. Qed.

Lemma notifiedPairs_app o1 o2 :
  notifiedPairs (o1 ++ o2) = (notifiedPairs o1 ++ notifiedPairs o2)%list.
Proof. unfold notifiedPairs. apply flat_map_app. Qed.

Lemma notifiedIds_pairs outs : notifiedIds outs = map fst (notifiedPairs outs).
Proof. induction outs as [|[] outs IH]; simpl; try rewrite IH; reflexivity. Qed.

Lemma notifiedHashes_pairs outs : notifiedHashes outs = map snd (notifiedPairs outs).
Proof. induction outs as [|[] outs IH]; simpl; try rewrite IH; reflexivity. Qed.

Lemma botInv_with_audit st n a : botInv st n -> botInv (with_audit st a) n.
Proof. unfold botInv, with_audit. simpl. auto. Qed.

(** [setRecordStatus] to a terminal status keeps the invariant; the
    pending approval of the record it updates may already be gone. *)
Lemma setRecordStatus_inv st i s by' e1 e2 now n :
  NoDup n ->
  (forall k, In k n -> is_Some (savedRecords st !! k)) ->
  (forall k, is_Some (savedRecords st !! k) -> is_Some (approvalRecords st !! k)) ->
  (forall j r, j <> i -> approvalRecords st !! j = Some r -> status r = Pending ->
               is_Some (pendingApprovals st !! j)) ->
  s <> Pending ->
  botInv (setRecordStatus st i s by' e1 e2 now) n.
Proof.
  intros Hnd H1 H2 H3 Hs. unfold setRecordStatus.
  destruct (approvalRecords st !! i) as [ex|] eqn:Hi.
  - unfold botInv, saveState, with_records. simpl.
    split; [exact Hnd|]. split; [|split; [auto|]].
    + intros k Hk. destruct (H2 k (H1 k Hk)) as [x Hx].
      destruct (decide (k = i)) as [->|Hne].
      * rewrite lookup_insert_eq. eauto.
      * rewrite lookup_insert_ne by congruence. eauto.
    + intros j r Hj Hr. destruct (decide (j = i)) as [->|Hne].
      * rewrite lookup_insert_eq in Hj. injection Hj as <-. simpl in Hr. congruence.
      * rewrite lookup_insert_ne in Hj by congruence. eauto.
  - split; [exact Hnd|]. split; [exact H1|]. split; [exact H2|].
    intros j r Hj Hr. destruct (decide (j = i)) as [->|Hne]; [congruence|]. eauto.
Qed.

Lemma setRecordStatus_inv' st i s by' e1 e2 now n :
  botInv st n -> s <> Pending -> botInv (setRecordStatus st i s by' e1 e2 now) n.
Proof.
  intros (Hnd & H1 & H2 & H3) Hs. apply setRecordStatus_inv; eauto.
Qed.

Lemma setRecordStatus_deleted_inv st i s by' e1 e2 now n :
  botInv st n -> s <> Pending ->
  botInv (setRecordStatus (with_pending st (delete i (pendingApprovals st))) i s by' e1 e2 now) n.
Proof.
  intros (Hnd & H1 & H2 & H3) Hs. apply setRecordStatus_inv; simpl; auto.
  intros j r Hne Hj Hr. rewrite lookup_delete_ne by congruence. eauto.
Qed.

Lemma markSeen_inv st txs n : botInv st n -> botInv (markSeen st txs) n.
Proof.
  intros (Hnd & H1 & H2 & H3). unfold botInv, markSeen, saveState, with_seen. simpl.
  split; [exact Hnd|]. split; [|split]; eauto.
Qed.

Lemma startup_inv st recent n : botInv st n -> botInv (startup st recent) n.
Proof.
  intros (Hnd & H1 & H2 & H3).
  assert (Hl : botInv (loadState st) n).
  { unfold botInv, loadState. simpl. split; [exact Hnd|]. split; [exact H1|]. split; [auto|].
    intros j r Hj Hr. rewrite lookup_omap, Hj. simpl. unfold pendingOfRecord.
    rewrite Hr. simpl. eauto. }
  unfold startup. destruct (_ && _); [apply markSeen_inv|]; exact Hl.
Qed.

Lemma parse_key st tx a :
  parseApprovalFromTransaction st tx = Some a ->
  id a = approvalKeyFromTx (lt tx) (hash tx) /\ txHashHex a = hash tx.
Proof.
  unfold parseApprovalFromTransaction. destruct (bool_decide _); [discriminate|].
  destruct (firstApprovalRequest (outMessages tx)) as [[amt tgt]|]; [|discriminate].
  intros [= <-]. split; reflexivity.
Qed.

Lemma notify_inv cfg st a now sr st' outs err n :
  botInv st n ->
  notifyApprovalRequest cfg st a now sr = (st', outs, err) ->
  restoredIds outs = [] /\
  (notifiedPairs outs = [] \/ notifiedPairs outs = [(id a, txHashHex a)]) /\
  botInv st' (n ++ notifiedIds outs).
Proof.
  intros Hinv H. pose proof Hinv as (Hnd & H1 & H2 & H3).
  unfold notifyApprovalRequest in H.
  destruct (approvalRecords st !! id a) as [ex|] eqn:Ha.
  - destruct (is_pending (status ex) && _) eqn:Hb.
    + exfalso. apply andb_true_iff in Hb as [Hp Hn].
      assert (Hst : status ex = Pending) by (destruct (status ex); easy).
      destruct (H3 _ _ Ha Hst) as [x Hx]. rewrite Hx in Hn. discriminate.
    + injection H as <- <- <-. simpl. rewrite app_nil_r. auto.
  - destruct (Audit.claimMatchingRequestId _ _ _ _) as [audit' rid] eqn:Hc.
    injection H as <- <- <-. simpl.
    split; [reflexivity|]. split; [right; reflexivity|].
    assert (Hnotin : ~ In (id a) n).
    { intros Hin. destruct (H2 _ (H1 _ Hin)) as [x Hx]. congruence. }
    unfold botInv, upsertRecord, saveState, with_records, with_audit, with_pending. simpl.
    split; [|split; [|split]].
    + apply NoDup_app. split; [exact Hnd|]. split; [|apply NoDup_singleton].
      intros x Hx Hx'. apply list_elem_of_singleton in Hx'. subst x.
      apply list_elem_of_In in Hx. contradiction.
    + intros k Hk. apply in_app_or in Hk as [Hk|[<-|[]]].
      * destruct (decide (k = id a)) as [->|Hne]; [rewrite lookup_insert_eq; eauto|].
        rewrite lookup_insert_ne by congruence. eauto.
      * rewrite lookup_insert_eq. eauto.
    + auto.
    + intros j r Hj Hr. destruct (decide (j = id a)) as [->|Hne].
      * rewrite lookup_insert_eq. eauto.
      * rewrite lookup_insert_ne in Hj by congruence.
        rewrite lookup_insert_ne by congruence. eauto.
Qed.

Definition fromTransactions (txs : list Transaction) (p : string * string) : Prop :=
  exists tx, In tx txs /\ fst p = approvalKeyFromTx (lt tx) (hash tx) /\ snd p = hash tx.

Lemma process_inv cfg txs sr now :
  forall st st' outs err n,
  botInv st n ->
  processTransactions cfg st txs sr now = (st', outs, err) ->
  restoredIds outs = [] /\ Forall (fromTransactions txs) (notifiedPairs outs) /\
  botInv st' (n ++ notifiedIds outs).
Proof.
  induction txs as [|tx rest IH]; intros st st' outs err n Hinv H; simpl in H.
  - injection H as <- <- <-. simpl. rewrite app_nil_r. auto.
  - assert (Hw : forall l, Forall (fromTransactions rest) l -> Forall (fromTransactions (tx :: rest)) l).
    { intros l Hl. eapply Forall_impl; [exact Hl|]. intros p (t & Ht & Hk). exists t. simpl. auto. }
    destruct (parseApprovalFromTransaction st tx) as [a|] eqn:Hp.
    + destruct (parse_key _ _ _ Hp) as [Hid Hhash].
      destruct (notifyApprovalRequest cfg st a now (sr (id a))) as [[st1 o1] e1] eqn:Hn.
      destruct (notify_inv _ _ _ _ _ _ _ _ _ Hinv Hn) as (Hr1 & Hp1 & Hi1).
      assert (Hf1 : Forall (fromTransactions (tx :: rest)) (notifiedPairs o1)).
      { destruct Hp1 as [-> | ->]; [constructor|]. constructor; [|constructor].
        exists tx. simpl. auto. }
      destruct e1 as [e|].
      * injection H as <- <- <-. auto.
      * destruct (processTransactions cfg st1 rest sr now) as [[st2 o2] e2] eqn:Hr.
        injection H as <- <- <-.
        destruct (IH _ _ _ _ _ Hi1 Hr) as (Hr2 & Hf2 & Hi2).
        rewrite restoredIds_app, notifiedPairs_app, notifiedIds_app, Hr1, Hr2, app_assoc.
        split; [reflexivity|]. split; [apply Forall_app; split; auto|exact Hi2].
    + destruct (IH _ _ _ _ _ Hinv H) as (Hr & Hf & Hi). auto.
Qed.

Ltac solve_cb_outputs :=
  repeat (simpl; first [rewrite restoredIds_app | rewrite notifiedPairs_app | idtac]);
  simpl; split; reflexivity.

Lemma approveTry_inv cfg st chatId fromId approvalId tg submit now n :
  botInv st n ->
  let r := approveTry cfg st chatId fromId approvalId tg submit now in
  botInv (fst (fst r)) n /\ restoredIds (snd (fst r)) = [] /\ notifiedPairs (snd (fst r)) = [].
Proof.
  intros Hinv. unfold approveTry, approveProceed, answerIn.
  repeat case_match; simpl; try (split; [exact Hinv|split; reflexivity]).
  all: split; [|split; reflexivity].
  all: apply botInv_with_audit, setRecordStatus_deleted_inv; [exact Hinv|discriminate].
Qed.

Lemma approve_cb_inv cfg st chatId fromId approvalId tg submit now n :
  botInv st n ->
  let r := approve_cb cfg st chatId fromId approvalId tg submit now in
  botInv (fst r) n /\ restoredIds (snd r) = [] /\ notifiedPairs (snd r) = [].
Proof.
  intros Hinv. pose proof (approveTry_inv cfg st chatId fromId approvalId tg submit now n Hinv)
    as (Hi & Hr & Hp).
  unfold approve_cb.
  destruct (approveTry cfg st chatId fromId approvalId tg submit now) as [[st1 outs] err].
  simpl in Hi, Hr, Hp. destruct err as [m|]; simpl; [|auto].
  rewrite restoredIds_app, notifiedPairs_app, Hr, Hp. simpl.
  split; [|split; reflexivity].
  destruct (negb _); [|exact Hi].
  apply botInv_with_audit, setRecordStatus_inv'; [exact Hi|discriminate].
Qed.

Lemma rejectTry_inv cfg st chatId fromId approvalId tg now n :
  botInv st n ->
  let r := rejectTry cfg st chatId fromId approvalId tg now in
  botInv (fst (fst r)) n /\ restoredIds (snd (fst r)) = [] /\ notifiedPairs (snd (fst r)) = [].
Proof.
  intros Hinv.
  assert (Hdel : pendingApprovals st !! approvalId = None ->
                 botInv (with_pending st (delete approvalId (pendingApprovals st))) n).
  { intros Hn. rewrite delete_id by exact Hn. destruct st; exact Hinv. }
  assert (Hset : forall a, botInv (with_audit (setRecordStatus
             (with_pending st (delete approvalId (pendingApprovals st)))
             approvalId Rejected fromId None None now) a) n).
  { intros a. apply botInv_with_audit, setRecordStatus_deleted_inv; [exact Hinv|discriminate]. }
  unfold rejectTry, answerIn.
  repeat case_match; simpl; (split; [|split; reflexivity]);
    first [exact Hinv | apply Hset | apply Hdel; first [assumption | reflexivity] | congruence].
Qed.

Lemma reject_cb_inv cfg st chatId fromId approvalId tg now n :
  botInv st n ->
  let r := reject_cb cfg st chatId fromId approvalId tg now in
  botInv (fst r) n /\ restoredIds (snd r) = [] /\ notifiedPairs (snd r) = [].
Proof.
  intros Hinv. pose proof (rejectTry_inv cfg st chatId fromId approvalId tg now n Hinv)
    as (Hi & Hr & Hp).
  unfold reject_cb.
  destruct (rejectTry cfg st chatId fromId approvalId tg now) as [[st1 outs] err].
  simpl in Hi, Hr, Hp. destruct err as [m|]; simpl; [|auto].
  rewrite restoredIds_app, notifiedPairs_app, Hr, Hp. simpl. auto.
Qed.

Lemma fromTransactions_mono (l l' : list Transaction) ps :
  (forall tx, In tx l -> In tx l') ->
  Forall (fromTransactions l) ps -> Forall (fromTransactions l') ps.
Proof.
  intros Hsub Hf. eapply Forall_impl; [exact Hf|]. intros p (tx & Hin & Hk).
  exists tx. auto.
Qed.

Lemma pollTick_inv cfg st txs sr now n :
  botInv st n ->
  let r := pollTick cfg st txs sr now in
  restoredIds (snd r) = [] /\ Forall (fromTransactions txs) (notifiedPairs (snd r)) /\
  botInv (fst r) (n ++ notifiedIds (snd r)).
Proof.
  intros Hinv. unfold pollTick.
  destruct (processTransactions cfg st txs sr now) as [[st1 outs] err] eqn:Hp.
  destruct (process_inv _ _ _ _ _ _ _ _ _ Hinv Hp) as (Hr & Hf & Hi).
  destruct err; simpl; auto using markSeen_inv.
Qed.

Lemma botStep_inv cfg st step n :
  botInv st n ->
  let r := botStep cfg st step in
  restoredIds (snd r) = [] /\ Forall (fromTransactions (stepTransactions step)) (notifiedPairs (snd r)) /\
  botInv (fst r) (n ++ notifiedIds (snd r)).
Proof.
  intros Hinv. destruct step as [recent | txs sr now | chatId fromId approvalId tg submit now
                                 | chatId fromId approvalId tg now]; simpl.
  - rewrite app_nil_r. auto using startup_inv.
  - apply pollTick_inv. exact Hinv.
  - destruct (approve_cb_inv cfg st chatId fromId approvalId tg submit now n Hinv) as (Hi & Hr & Hp).
    rewrite notifiedIds_pairs, Hp. simpl. rewrite app_nil_r. auto.
  - destruct (reject_cb_inv cfg st chatId fromId approvalId tg now n Hinv) as (Hi & Hr & Hp).
    rewrite notifiedIds_pairs, Hp. simpl. rewrite app_nil_r. auto.
Qed.

Lemma runBot_inv cfg steps :
  forall st n, botInv st n ->
  let r := runBot cfg st steps in
  restoredIds (snd r) = [] /\
  Forall (fromTransactions (flat_map stepTransactions steps)) (notifiedPairs (snd r)) /\
  botInv (fst r) (n ++ notifiedIds (snd r)).
Proof.
  induction steps as [|step rest IH]; intros st n Hinv; simpl.
  - rewrite app_nil_r. auto.
  - pose proof (botStep_inv cfg st step n Hinv) as (Hr1 & Hf1 & Hi1).
    destruct (botStep cfg st step) as [st1 o1]. simpl in Hr1, Hf1, Hi1.
    pose proof (IH st1 _ Hi1) as (Hr2 & Hf2 & Hi2).
    destruct (runBot cfg st1 rest) as [st2 o2]. simpl in Hr2, Hf2, Hi2 |- *.
    rewrite restoredIds_app, notifiedPairs_app, notifiedIds_app, Hr1, Hr2, app_assoc.
    split; [reflexivity|]. split; [|exact Hi2].
    apply Forall_app. split.
    + eapply fromTransactions_mono; [|exact Hf1]. intros tx Hin. apply in_or_app. auto.
    + eapply fromTransactions_mono; [|exact Hf2]. intros tx Hin. apply in_or_app. auto.
Qed.

Lemma botInv_fresh audit : botInv (freshBotState audit) [].
Proof.
  unfold botInv, freshBotState. simpl.
  split; [constructor|]. split; [intros ? []|].
  split; intros i; [rewrite lookup_empty; intros [? [=]]|].
  intros r. rewrite lookup_empty. discriminate.
Qed.

Lemma NoDup_map_inv' {A B} (f : A -> B) (l : list A) : NoDup (map f l) -> NoDup l.
Proof.
  induction l as [|x l IH]; simpl; intros H; [constructor|].
  apply NoDup_cons in H as [Hn Hd]. apply NoDup_cons. split; [|auto].
  intros Hin. apply Hn. apply list_elem_of_In, in_map, list_elem_of_In. exact Hin.
Qed.

Lemma pairs_keyed (chainLt : string -> Z) txs ps :
  (forall tx, In tx txs -> lt tx = chainLt (hash tx)) ->
  Forall (fromTransactions txs) ps ->
  map fst ps = map (fun h => approvalKeyFromTx (chainLt h) h) (map snd ps).
Proof.
  intros Hlt Hf.
  induction Hf as [|[i h] ps (tx & Hin & Hi & Hh) _ IH]; simpl in *; [reflexivity|].
  rewrite IH. subst. rewrite Hlt by exact Hin. reflexivity.
Qed.

(** Claim C9. Over any run of the bot from its first deployment (poll
    ticks, whose [sendMessage] may throw, restarts reloading the state
    file, approve and reject callbacks), the owner is notified at most once
    per approval id, and no pending approval is ever re-created for an
    approval that already has a record. As the approval id is built from the
    transaction's [lt] and hash, and a transaction's hash determines its
    [lt], each transaction hash is notified at most once. *)
Theorem approval_notified_once cfg audit steps :
  NoDup (notifiedIds (snd (runBot cfg (freshBotState audit) steps))) /\
  restoredIds (snd (runBot cfg (freshBotState audit) steps)) = [] /\
  (forall chainLt : string -> Z,
     (forall tx, In tx (flat_map stepTransactions steps) -> lt tx = chainLt (hash tx)) ->
     NoDup (notifiedHashes (snd (runBot cfg (freshBotState audit) steps)))).
Proof.
  pose proof (runBot_inv cfg steps _ [] (botInv_fresh audit)) as (Hr & Hf & (Hnd & _)).
  simpl in Hnd. split; [exact Hnd|]. split; [exact Hr|].
  intros chainLt Hlt. rewrite notifiedHashes_pairs.
  rewrite notifiedIds_pairs, (pairs_keyed chainLt _ _ Hlt Hf) in Hnd.
  exact (NoDup_map_inv' _ _ Hnd).
Qed.

(** Claim C2 (counterexample). A record already [approved] is overwritten
    with [failed] by a later approve callback, without the answer
    [Request already approved.]: when the callback comes from a chat other
    than the owner's ([ensureAuthorizedChat] throws), and when it comes from
    the owner's chat but answering the callback query throws. In both cases
    the [catch] calls [setRecordStatus(approvalId, "failed", ...)], which
    replaces [status], [resolvedAt], [resolvedBy] and [submitError], and
    persists the result. *)
Lemma approve_cb_overwrites_terminal_record :
  approvalRecords approvedState !! "7-abcdef01" = Some approvedRecord /\
  status approvedRecord = Approved /\
  approvalRecords (fst (approve_cb ownerConfig approvedState "999" "999" "7-abcdef01"
                          telegramOk (inr "EQW-owner") 10)) !! "7-abcdef01" =
    Some {| approval := sampleApproval; status := Failed; createdAt := 1;
            requestId := Some "req-2"; resolvedAt := Some 10; resolvedBy := Some "999";
            ownerWallet := Some "EQW-owner"; submitError := Some "Unauthorized chat" |} /\
  savedRecords (fst (approve_cb ownerConfig approvedState "999" "999" "7-abcdef01"
                       telegramOk (inr "EQW-owner") 10)) !! "7-abcdef01" =
    Some {| approval := sampleApproval; status := Failed; createdAt := 1;
            requestId := Some "req-2"; resolvedAt := Some 10; resolvedBy := Some "999";
            ownerWallet := Some "EQW-owner"; submitError := Some "Unauthorized chat" |} /\
  snd (approve_cb ownerConfig approvedState "999" "999" "7-abcdef01"
         telegramOk (inr "EQW-owner") 10) =
    [Answered "Approval failed."; Replied "Failed to approve request: Unauthorized chat"] /\
  approvalRecords (fst (approve_cb ownerConfig approvedState "42" "42" "7-abcdef01"
                          {| answerResult := Some "query is too old"; replyResult := None |}
                          (inr "EQW-owner") 11)) !! "7-abcdef01" =
    Some {| approval := sampleApproval; status := Failed; createdAt := 1;
            requestId := Some "req-2"; resolvedAt := Some 11; resolvedBy := Some "42";
            ownerWallet := Some "EQW-owner"; submitError := Some "query is too old" |}.
Proof.
  repeat split; vm_compute; reflexivity.
Qed.

Import Broker.

(** ** Further properties: envelope ledger *)

Lemma normalizeWindow_id e now : id (normalizeWindow e now) = id e.
Proof. unfold normalizeWindow. destruct (_ <=? _); reflexivity. Qed.

Lemma normalizeWindow_createdAt e now : createdAt (normalizeWindow e now) = createdAt e.
Proof. unfold normalizeWindow. destruct (_ <=? _); reflexivity. Qed.

Lemma normalizeWindow_idem e now :
  normalizeWindow (normalizeWindow e now) now = normalizeWindow e now.
Proof.
  unfold normalizeWindow at 2 3.
  destruct (windowStartedAt e + periodSeconds e <=? now) eqn:H1.
  - unfold normalizeWindow. simpl. destruct (now + periodSeconds e <=? now); reflexivity.
  - unfold normalizeWindow. rewrite H1. reflexivity.
Qed.

Lemma normalizeWindow_open e now :
  0 < periodSeconds e ->
  now < windowStartedAt (normalizeWindow e now) + periodSeconds (normalizeWindow e now).
Proof.
  intros Hp. unfold normalizeWindow.
  destruct (windowStartedAt e + periodSeconds e <=? now) eqn:H1; simpl; [lia|].
  apply Z.leb_gt in H1. lia.
Qed.

Lemma existsb_eqb_In a l : existsb (String.eqb a) l = true <-> In a l.
Proof.
  rewrite existsb_exists. split.
  - intros [x [Hx Heq]]. apply String.eqb_eq in Heq. subst. exact Hx.
  - intros Hin. exists a. split; [exact Hin | apply String.eqb_refl].
Qed.

(** [createEnvelope] succeeds only on a non-blank new id with a positive
    budget and period; the envelope starts with nothing spent, no agent,
    and its window opening now, so every allowance read reports the whole
    budget until something is reserved. *)
Theorem createEnvelope_success_full_allowance st envelopeId total period now st' e :
  createEnvelope st envelopeId total period now = (st', inr e) ->
  is_blank envelopeId = false /\ 0 < total /\ 0 < period /\ st !! envelopeId = None /\
  st' = <[envelopeId := e]> st /\
  e = {| id := envelopeId; totalBudgetNano := total; spentInWindowNano := 0;
         periodSeconds := period; windowStartedAt := now; createdAt := now; agentIds := [] |} /\
  (forall t, remainingAt st' envelopeId t = Some total).
Proof.
  unfold createEnvelope. intros H.
  destruct (is_blank envelopeId) eqn:Hb; [discriminate|].
  destruct (total <=? 0) eqn:Ht; [discriminate|].
  destruct (period <=? 0) eqn:Hp; [discriminate|].
  destruct (st !! envelopeId) eqn:Hl; [discriminate|].
  injection H as <- <-. apply Z.leb_gt in Ht, Hp.
  split; [reflexivity|]. split; [lia|]. split; [lia|]. split; [reflexivity|].
  split; [reflexivity|]. split; [reflexivity|].
  intros t. rewrite (remainingAt_found _ _ _ _ (lookup_insert_eq _ _ _)).
  f_equal. unfold normalizeWindow. simpl. destruct (_ <=? _); simpl; lia.
Qed.

Lemma createEnvelope_success_full_allowance_witness :
  createEnvelope emptyBrokerState "daily" 10 10 100 =
    (fst (createEnvelope emptyBrokerState "daily" 10 10 100),
     inr {| id := "daily"; totalBudgetNano := 10; spentInWindowNano := 0;
            periodSeconds := 10; windowStartedAt := 100; createdAt := 100; agentIds := [] |}) /\
  remainingAt (fst (createEnvelope emptyBrokerState "daily" 10 10 100)) "daily" 5000 = Some 10.
Proof.
  split; [reflexivity|].
  refine (proj2 (proj2 (proj2 (proj2 (proj2 (proj2
    (createEnvelope_success_full_allowance emptyBrokerState "daily" 10 10 100 _ _ _)))))) 5000).
  reflexivity.
Defined.

(** A [createEnvelope], [assignAgentToEnvelope] or
    [rollbackEnvelopeReservation] call that throws leaves the ledger as
    it was. *)
Theorem failed_ledger_updates_keep_state (st : BrokerState) :
  (forall envelopeId total period now err,
     snd (createEnvelope st envelopeId total period now) = inl err ->
     fst (createEnvelope st envelopeId total period now) = st) /\
  (forall envelopeId agentId err,
     snd (assignAgentToEnvelope st envelopeId agentId) = inl err ->
     fst (assignAgentToEnvelope st envelopeId agentId) = st) /\
  (forall envelopeId amountNano err,
     snd (rollbackEnvelopeReservation st envelopeId amountNano) = inl err ->
     fst (rollbackEnvelopeReservation st envelopeId amountNano) = st).
Proof.
  split; [|split]; intros *;
    [unfold createEnvelope | unfold assignAgentToEnvelope | unfold rollbackEnvelopeReservation];
    repeat case_match; simpl; intros; congruence.
Qed.

Lemma failed_ledger_updates_keep_state_witness :
  fst (createEnvelope dailyScenario "daily" 10 10 200) = dailyScenario /\
  fst (assignAgentToEnvelope dailyScenario "weekly" "agent-b") = dailyScenario /\
  fst (rollbackEnvelopeReservation dailyScenario "daily" 9) = dailyScenario.
Proof.
  split; [|split].
  - apply (proj1 (failed_ledger_updates_keep_state dailyScenario) "daily" 10 10 200
             (EnvelopeAlreadyExists "daily")). vm_compute. reflexivity.
  - apply (proj1 (proj2 (failed_ledger_updates_keep_state dailyScenario)) "weekly" "agent-b"
             (EnvelopeNotFound "weekly")). vm_compute. reflexivity.
  - apply (proj2 (proj2 (failed_ledger_updates_keep_state dailyScenario)) "daily" 9
             (CannotRollback 9 "daily" 8)). vm_compute. reflexivity.
Defined.

(** A reservation that throws spends nothing: the ledger is either
    unchanged or only refreshed by the allowance read it makes. *)
Theorem reserve_failure_spends_nothing st envelopeId agentId amountNano now err :
  snd (reserveEnvelopeBudget st envelopeId agentId amountNano now) = inl err ->
  fst (reserveEnvelopeBudget st envelopeId agentId amountNano now) = st \/
  fst (reserveEnvelopeBudget st envelopeId agentId amountNano now) =
    fst (getEnvelopeAllowance st envelopeId now).
Proof.
  unfold reserveEnvelopeBudget. intros H.
  destruct (amountNano <=? 0); [left; reflexivity|].
  destruct (getEnvelopeAllowance st envelopeId now) as [st1 [e|[env rem]]] eqn:Hg;
    simpl in *; [right; reflexivity|].
  destruct (negb _); simpl in *; [right; reflexivity|].
  destruct (rem <? amountNano); simpl in *; [right; reflexivity | discriminate].
Qed.

Lemma reserve_failure_spends_nothing_witness :
  snd (reserveEnvelopeBudget dailyScenario "daily" "agent-b" 1 106) =
    inl (AgentNotAssigned "agent-b" "daily") /\
  (fst (reserveEnvelopeBudget dailyScenario "daily" "agent-b" 1 106) = dailyScenario \/
   fst (reserveEnvelopeBudget dailyScenario "daily" "agent-b" 1 106) =
     fst (getEnvelopeAllowance dailyScenario "daily" 106)).
Proof.
  split; [vm_compute; reflexivity|].
  apply (reserve_failure_spends_nothing _ _ _ _ _ (AgentNotAssigned "agent-b" "daily")).
  vm_compute. reflexivity.
Defined.

(** Assigning the same agent twice is the same as assigning it once. *)
Theorem assignAgentToEnvelope_idempotent st envelopeId agentId :
  assignAgentToEnvelope (fst (assignAgentToEnvelope st envelopeId agentId)) envelopeId agentId =
  assignAgentToEnvelope st envelopeId agentId.
Proof.
  destruct (st !! envelopeId) as [e|] eqn:He.
  - destruct (is_blank agentId) eqn:Hb.
    + unfold assignAgentToEnvelope. rewrite He, Hb. simpl. rewrite ?He, ?Hb. reflexivity.
    + destruct (existsb (String.eqb agentId) (agentIds e)) eqn:Hx.
      * unfold assignAgentToEnvelope. rewrite He, Hb, Hx. simpl. rewrite ?He, ?Hb, ?Hx. reflexivity.
      * unfold assignAgentToEnvelope at 2 3. rewrite He, Hb, Hx. simpl.
        unfold assignAgentToEnvelope. rewrite lookup_insert_eq, Hb. simpl.
        rewrite existsb_app. simpl. rewrite String.eqb_refl, Bool.orb_true_r. reflexivity.
  - unfold assignAgentToEnvelope. rewrite He. simpl. rewrite ?He. reflexivity.
Qed.

Lemma ledger_wf_update st k e e' :
  ledger_wf st -> st !! k = Some e -> id e' = id e -> NoDup (agentIds e') ->
  ledger_wf (<[k := e']> st).
Proof.
  intros Hwf He Hid Hnd. unfold ledger_wf.
  apply map_Forall_insert_2; [|exact Hwf].
  destruct (map_Forall_lookup_1 _ _ _ _ Hwf He) as [Hk _]. split; congruence.
Qed.

Lemma ledger_wf_lookup st k e : ledger_wf st -> st !! k = Some e -> id e = k /\ NoDup (agentIds e).
Proof. intros Hwf He. exact (map_Forall_lookup_1 _ _ _ _ Hwf He). Qed.

Lemma ledger_wf_allowance st envelopeId now :
  ledger_wf st -> ledger_wf (fst (getEnvelopeAllowance st envelopeId now)).
Proof.
  intros Hwf. destruct (st !! envelopeId) as [e|] eqn:He.
  - rewrite (getEnvelopeAllowance_found _ _ _ _ He). simpl.
    apply (ledger_wf_update _ _ e); [exact Hwf | exact He | apply normalizeWindow_id |].
    rewrite normalizeWindow_agents. exact (proj2 (ledger_wf_lookup _ _ _ Hwf He)).
  - unfold getEnvelopeAllowance. rewrite He. exact Hwf.
Qed.

Lemma ledger_wf_applyOp st op : ledger_wf st -> ledger_wf (applyOp st op).
Proof.
  intros Hwf. destruct op as [i t p n | i a | i n | i a amt n | i amt]; simpl.
  - unfold createEnvelope. repeat case_match; simpl; try exact Hwf.
    unfold ledger_wf. apply map_Forall_insert_2; [|exact Hwf]. simpl. split; [reflexivity | constructor].
  - unfold assignAgentToEnvelope. destruct (st !! i) as [e|] eqn:He; simpl; [|exact Hwf].
    destruct (is_blank a); simpl; [exact Hwf|].
    destruct (existsb (String.eqb a) (agentIds e)) eqn:Hx; simpl; [exact Hwf|].
    apply (ledger_wf_update _ _ e); [exact Hwf | exact He | reflexivity |]. simpl.
    apply NoDup_app. split; [exact (proj2 (ledger_wf_lookup _ _ _ Hwf He))|].
    split; [|apply NoDup_singleton].
    intros x Hx' Hxa. apply list_elem_of_singleton in Hxa. subst x.
    apply list_elem_of_In in Hx'. apply existsb_eqb_In in Hx'. congruence.
  - exact (ledger_wf_allowance _ _ _ Hwf).
  - unfold reserveEnvelopeBudget. destruct (amt <=? 0); simpl; [exact Hwf|].
    pose proof (ledger_wf_allowance st i n Hwf) as Hwf1.
    destruct (st !! i) as [e|] eqn:He.
    + rewrite (getEnvelopeAllowance_found _ _ _ _ He) in *. simpl in *.
      destruct (negb _); simpl; [exact Hwf1|].
      destruct (_ <? _); simpl; [exact Hwf1|].
      apply (ledger_wf_update _ _ (normalizeWindow e n)); [exact Hwf1 | apply lookup_insert_eq | reflexivity |].
      simpl. rewrite normalizeWindow_agents. exact (proj2 (ledger_wf_lookup _ _ _ Hwf He)).
    + unfold getEnvelopeAllowance. rewrite He. exact Hwf.
  - unfold rollbackEnvelopeReservation. destruct (amt <=? 0); simpl; [exact Hwf|].
    destruct (st !! i) as [e|] eqn:He; simpl; [|exact Hwf].
    destruct (_ <? 0); simpl; [exact Hwf|].
    apply (ledger_wf_update _ _ e); [exact Hwf | exact He | reflexivity |].
    exact (proj2 (ledger_wf_lookup _ _ _ Hwf He)).
Qed.

(** Every ledger operation keeps each envelope stored under its own id
    and never lists an agent twice. *)
Theorem ledger_wf_runOps ops : forall st, ledger_wf st -> ledger_wf (runOps st ops).
Proof.
  induction ops as [|op ops IH]; intros st Hwf; simpl; [exact Hwf|].
  apply IH. apply ledger_wf_applyOp. exact Hwf.
Qed.

Lemma ledger_wf_runOps_witness :
  ledger_wf emptyBrokerState /\
  ledger_wf (runOps emptyBrokerState
    [OpCreate "daily" 10 10 100; OpAssign "daily" "agent-a"; OpAssign "daily" "agent-a";
     OpReserve "daily" "agent-a" 4 101; OpRollback "daily" 4]).
Proof.
  assert (H0 : ledger_wf emptyBrokerState) by (apply (bool_decide_unpack _); vm_compute; reflexivity).
  split; [exact H0|]. apply ledger_wf_runOps. exact H0.
Defined.

Lemma terms_kept_refl e : terms_kept e e.
Proof. unfold terms_kept. repeat split; reflexivity. Qed.

Lemma terms_kept_trans e1 e2 e3 : terms_kept e1 e2 -> terms_kept e2 e3 -> terms_kept e1 e3.
Proof.
  unfold terms_kept. intros (H1 & H2 & H3 & H4 & H5) (G1 & G2 & G3 & G4 & G5).
  repeat split; try congruence. etransitivity; eassumption.
Qed.

Lemma terms_kept_normalize e now : terms_kept e (normalizeWindow e now).
Proof.
  unfold terms_kept. rewrite normalizeWindow_id, normalizeWindow_total, normalizeWindow_period,
    normalizeWindow_createdAt, normalizeWindow_agents. repeat split; reflexivity.
Qed.

Lemma terms_kept_spent e s : terms_kept e (with_spent e s).
Proof. unfold terms_kept. repeat split; reflexivity. Qed.

Lemma terms_kept_insert (st : BrokerState) e (k' : string) e' :
  st !! k' = Some e -> terms_kept e e' ->
  forall j d, st !! j = Some d -> exists d', <[k' := e']> st !! j = Some d' /\ terms_kept d d'.
Proof.
  intros He Hk j d Hd. destruct (String.eq_dec k' j) as [<-|Hne].
  - rewrite He in Hd. injection Hd as <-. exists e'. split; [apply lookup_insert_eq | exact Hk].
  - exists d. rewrite lookup_insert_ne by exact Hne. split; [exact Hd | apply terms_kept_refl].
Qed.

Lemma terms_kept_allowance st i now :
  forall j d, st !! j = Some d ->
  exists d', fst (getEnvelopeAllowance st i now) !! j = Some d' /\ terms_kept d d'.
Proof.
  intros j d Hd. destruct (st !! i) as [e|] eqn:He.
  - rewrite (getEnvelopeAllowance_found _ _ _ _ He). simpl.
    exact (terms_kept_insert st e i _ He (terms_kept_normalize e now) j d Hd).
  - unfold getEnvelopeAllowance. rewrite He. exists d. split; [exact Hd | apply terms_kept_refl].
Qed.

Lemma terms_kept_applyOp st op :
  forall j d, st !! j = Some d ->
  exists d', applyOp st op !! j = Some d' /\ terms_kept d d'.
Proof.
  intros j d Hd. destruct op as [i t p n | i a | i n | i a amt n | i amt]; simpl.
  - unfold createEnvelope. repeat case_match; simpl;
      try (exists d; split; [exact Hd | apply terms_kept_refl]).
    exists d. rewrite lookup_insert_ne; [split; [exact Hd | apply terms_kept_refl]|].
    intros ->. congruence.
  - unfold assignAgentToEnvelope. destruct (st !! i) as [e|] eqn:He; simpl;
      [|exists d; split; [exact Hd | apply terms_kept_refl]].
    destruct (is_blank a); simpl; [exists d; split; [exact Hd | apply terms_kept_refl]|].
    destruct (existsb _ _); simpl; [exists d; split; [exact Hd | apply terms_kept_refl]|].
    apply (terms_kept_insert st e i _ He); [|exact Hd].
    unfold terms_kept. simpl. repeat split; try reflexivity. apply prefix_app_r. reflexivity.
  - exact (terms_kept_allowance st i n j d Hd).
  - unfold reserveEnvelopeBudget. destruct (amt <=? 0); simpl;
      [exists d; split; [exact Hd | apply terms_kept_refl]|].
    destruct (terms_kept_allowance st i n j d Hd) as [d1 [Hd1 Hk1]].
    destruct (st !! i) as [e|] eqn:He.
    + rewrite (getEnvelopeAllowance_found _ _ _ _ He) in *. simpl in *.
      destruct (negb _); simpl; [exists d1; split; assumption|].
      destruct (_ <? _); simpl; [exists d1; split; assumption|].
      destruct (terms_kept_insert _ (normalizeWindow e n) i _ (lookup_insert_eq _ _ _)
                  (terms_kept_spent _ (spentInWindowNano (normalizeWindow e n) + amt)) j d1 Hd1)
        as [d2 [Hd2 Hk2]].
      exists d2. split; [exact Hd2 | exact (terms_kept_trans _ _ _ Hk1 Hk2)].
    + unfold getEnvelopeAllowance. rewrite He. exists d. split; [exact Hd | apply terms_kept_refl].
  - unfold rollbackEnvelopeReservation. destruct (amt <=? 0); simpl;
      [exists d; split; [exact Hd | apply terms_kept_refl]|].
    destruct (st !! i) as [e|] eqn:He; simpl; [|exists d; split; [exact Hd | apply terms_kept_refl]].
    destruct (_ <? 0); simpl; [exists d; split; [exact Hd | apply terms_kept_refl]|].
    exact (terms_kept_insert st e i _ He (terms_kept_spent _ _) j d Hd).
Qed.

(** No ledger operation removes an envelope or changes its id, budget,
    period or creation time; agents are only ever added to its list. *)
Theorem runOps_keeps_envelope_terms ops : forall st k e, st !! k = Some e ->
  exists e', runOps st ops !! k = Some e' /\
    id e' = id e /\ totalBudgetNano e' = totalBudgetNano e /\
    periodSeconds e' = periodSeconds e /\ createdAt e' = createdAt e /\
    agentIds e `prefix_of` agentIds e'.
Proof.
  assert (Hgen : forall st k e, st !! k = Some e ->
            exists e', runOps st ops !! k = Some e' /\ terms_kept e e').
  { induction ops as [|op ops IH]; intros st k e He; simpl.
    - exists e. split; [exact He | apply terms_kept_refl].
    - destruct (terms_kept_applyOp st op k e He) as [e1 [He1 Hk1]].
      destruct (IH _ _ _ He1) as [e2 [He2 Hk2]].
      exists e2. split; [exact He2 | exact (terms_kept_trans _ _ _ Hk1 Hk2)]. }
  intros st k e He. exact (Hgen st k e He).
Qed.

Lemma runOps_keeps_envelope_terms_witness :
  dailyScenario !! "daily" = Some {| id := "daily"; totalBudgetNano := 10; spentInWindowNano := 8;
                                     periodSeconds := 10; windowStartedAt := 100;
                                     createdAt := 100; agentIds := ["agent-a"] |} /\
  exists e', runOps dailyScenario
               [OpAllowance "daily" 120; OpAssign "daily" "agent-b"; OpRollback "daily" 1;
                OpCreate "daily" 5 5 130] !! "daily" = Some e' /\
    id e' = "daily" /\ totalBudgetNano e' = 10 /\ periodSeconds e' = 10 /\ createdAt e' = 100 /\
    ["agent-a"] `prefix_of` agentIds e'.
Proof.
  assert (H : dailyScenario !! "daily" = Some {| id := "daily"; totalBudgetNano := 10;
            spentInWindowNano := 8; periodSeconds := 10; windowStartedAt := 100;
            createdAt := 100; agentIds := ["agent-a"] |}) by (vm_compute; reflexivity).
  split; [exact H|].
  exact (runOps_keeps_envelope_terms _ _ _ _ H).
Defined.

(** With the agent assigned and a positive period, a positive
    reservation succeeds exactly when it does not exceed the remaining
    allowance, and then lowers it by the amount reserved; a larger one is
    refused with the remaining and requested amounts. *)
Theorem reserve_up_to_remaining st envelopeId agentId amountNano now e r :
  st !! envelopeId = Some e -> In agentId (agentIds e) -> 0 < periodSeconds e ->
  remainingAt st envelopeId now = Some r -> 0 < amountNano ->
  (amountNano <= r ->
     (exists e', snd (reserveEnvelopeBudget st envelopeId agentId amountNano now) =
                 inr (e', r - amountNano)) /\
     remainingAt (fst (reserveEnvelopeBudget st envelopeId agentId amountNano now)) envelopeId now =
       Some (r - amountNano)) /\
  (r < amountNano ->
     snd (reserveEnvelopeBudget st envelopeId agentId amountNano now) =
       inl (EnvelopeLimitExceeded envelopeId r amountNano)).
Proof.
  intros He Ha Hp Hr Hamt.
  rewrite (remainingAt_found _ _ _ _ He) in Hr. injection Hr as <-.
  apply existsb_eqb_In in Ha.
  split.
  - intros Hle.
    rewrite (reserveEnvelopeBudget_success st envelopeId agentId amountNano now e He Ha Hamt Hle).
    simpl. split.
    + eexists. f_equal. f_equal. lia.
    + rewrite (remainingAt_found _ _ _ _ (lookup_insert_eq _ _ _)). f_equal.
      rewrite (normalizeWindow_no_rollover (with_spent (normalizeWindow e now) _) now).
      * simpl. rewrite normalizeWindow_total. lia.
      * exact (normalizeWindow_open e now Hp).
  - intros Hlt. unfold reserveEnvelopeBudget.
    assert (H0 : (amountNano <=? 0) = false) by (apply Z.leb_gt; lia). rewrite H0.
    rewrite (getEnvelopeAllowance_found _ _ _ _ He). simpl.
    rewrite normalizeWindow_agents, Ha. simpl.
    assert (H1 : (totalBudgetNano e - spentInWindowNano (normalizeWindow e now) <? amountNano) = true)
      by (apply Z.ltb_lt; lia).
    rewrite H1. reflexivity.
Qed.

Lemma reserve_up_to_remaining_witness :
  remainingAt dailyScenario "daily" 106 = Some 2 /\
  ((2 <= 2 ->
     (exists e', snd (reserveEnvelopeBudget dailyScenario "daily" "agent-a" 2 106) = inr (e', 2 - 2)) /\
     remainingAt (fst (reserveEnvelopeBudget dailyScenario "daily" "agent-a" 2 106)) "daily" 106 =
       Some (2 - 2)) /\
   (2 < 2 -> snd (reserveEnvelopeBudget dailyScenario "daily" "agent-a" 2 106) =
               inl (EnvelopeLimitExceeded "daily" 2 2))).
Proof.
  split; [vm_compute; reflexivity|].
  apply (reserve_up_to_remaining dailyScenario "daily" "agent-a" 2 106
           {| id := "daily"; totalBudgetNano := 10; spentInWindowNano := 8;
              periodSeconds := 10; windowStartedAt := 100; createdAt := 100;
              agentIds := ["agent-a"] |}).
  - vm_compute. reflexivity.
  - simpl. left. reflexivity.
  - simpl; lia.
  - vm_compute. reflexivity.
  - lia.
Defined.

(** Reading an envelope's allowance twice at the same time gives the same
    ledger and the same answer as reading it once. *)
Theorem getEnvelopeAllowance_idempotent st envelopeId now :
  getEnvelopeAllowance (fst (getEnvelopeAllowance st envelopeId now)) envelopeId now =
  getEnvelopeAllowance st envelopeId now.
Proof.
  destruct (st !! envelopeId) as [e|] eqn:He.
  - rewrite (getEnvelopeAllowance_found _ _ _ _ He). simpl.
    rewrite (getEnvelopeAllowance_found _ _ _ _ (lookup_insert_eq _ _ _)).
    rewrite normalizeWindow_idem, insert_insert_eq, normalizeWindow_total. reflexivity.
  - unfold getEnvelopeAllowance. rewrite He. simpl. rewrite ?He. reflexivity.
Qed.

Import Facilitator.

(** ** Further properties: facilitator client *)

Lemma totalSleep_app l1 l2 : totalSleep (l1 ++ l2) = totalSleep l1 + totalSleep l2.
Proof.
  induction l1 as [|ev l1 IH]; simpl; [reflexivity|].
  unfold totalSleep in *. simpl. rewrite IH. destruct ev; lia.
Qed.

Lemma totalSleep_scheduleFrom b total (n : nat) : forall k,
  (1 <= n)%nat -> Z.of_nat n = total - k + 1 ->
  2 * totalSleep (scheduleFrom b total k n) = b * (total * (total - 1) - k * (k - 1)).
Proof.
  induction n as [|n IH]; intros k Hn Hk; [lia|].
  cbn [scheduleFrom]. rewrite totalSleep_app.
  destruct n as [|n'].
  - assert (Ht : total = k) by lia. subst total.
    rewrite Z.ltb_irrefl. simpl. unfold totalSleep. simpl. ring.
  - assert (Hlt : (k <? total) = true) by (apply Z.ltb_lt; lia). rewrite Hlt.
    rewrite Z.mul_add_distr_l, (IH (k + 1)) by lia.
    unfold totalSleep. simpl. ring.
Qed.

(** With a URL configured and a negative [retryAttempts], the loop runs
    no attempt: nothing is fetched and the call fails with the message of
    an undefined last error. *)
Theorem requestFacilitatorDecision_negative_retries service input config u :
  url config = Some u -> is_blank u = false -> effectiveRetryAttempts config <= -1 ->
  requestFacilitatorDecision service input config =
    ([], inl "x402 facilitator integration failed: undefined").
Proof.
  intros Hu Hb Hr.
  rewrite (requestFacilitatorDecision_configured service input config u Hu Hb). cbv zeta.
  replace (Z.to_nat (effectiveRetryAttempts config + 1)) with 0%nat by lia.
  reflexivity.
Qed.

Lemma requestFacilitatorDecision_negative_retries_witness :
  requestFacilitatorDecision failOnceService testInput (testConfig (Some (-1)) None) =
    ([], inl "x402 facilitator integration failed: undefined").
Proof.
  apply (requestFacilitatorDecision_negative_retries _ _ _ "https://facilitator.local/decide").
  - reflexivity.
  - reflexivity.
  - unfold effectiveRetryAttempts. simpl. lia.
Defined.

(** When the first attempt yields a decision, the client fetches once,
    never waits, and returns that decision, whatever the retry budget. *)
Theorem requestFacilitatorDecision_first_success service input config u d :
  url config = Some u -> is_blank u = false -> 0 <= effectiveRetryAttempts config ->
  facilitatorAttempt input (service 1) = inr d ->
  requestFacilitatorDecision service input config = ([Fetch 1], inr (Some d)).
Proof.
  intros Hu Hb Hr Hd.
  rewrite (requestFacilitatorDecision_configured service input config u Hu Hb). cbv zeta.
  destruct (Z.to_nat (effectiveRetryAttempts config + 1)) as [|n] eqn:Hn; [lia|].
  simpl. assert (H1 : (1 <=? effectiveRetryAttempts config + 1) = true) by (apply Z.leb_le; lia).
  rewrite H1, Hd. reflexivity.
Qed.

Lemma requestFacilitatorDecision_first_success_witness :
  requestFacilitatorDecision stringAcceptedService testInput (testConfig (Some 3) (Some 10)) =
    ([Fetch 1], inr (Some {| dec_targetAddress := in_targetAddress testInput;
                             dec_amountInTon := in_amountInTon testInput;
                             dec_reference := None; dec_note := Some "n" |})).
Proof.
  apply (requestFacilitatorDecision_first_success _ _ _ "https://facilitator.local/decide").
  - reflexivity.
  - reflexivity.
  - unfold effectiveRetryAttempts. simpl. lia.
  - vm_compute. reflexivity.
Defined.

(** When every attempt fails, the client makes [retryAttempts + 1]
    fetches and waits [backoffMs * (1 + 2 + ... + retryAttempts)] in
    total: twice the wait is [backoffMs * n * (n - 1)] for [n] attempts. *)
Theorem requestFacilitatorDecision_total_backoff service input config u tr m :
  url config = Some u -> is_blank u = false -> 0 <= effectiveRetryAttempts config ->
  requestFacilitatorDecision service input config = (tr, inl m) ->
  fetchCount tr = Z.to_nat (effectiveRetryAttempts config + 1) /\
  2 * totalSleep tr =
    effectiveBackoffMs config * (effectiveRetryAttempts config + 1) * effectiveRetryAttempts config.
Proof.
  intros Hu Hb Hr Hrun.
  destruct (requestFacilitatorDecision_retry_facts service input config u tr (inl m) Hu Hb Hrun)
    as (_ & _ & Hfail & _).
  destruct (Hfail Hr m eq_refl) as [Htr _]. subst tr. unfold schedule.
  split; [apply fetchCount_scheduleFrom|].
  rewrite (totalSleep_scheduleFrom _ _ _ 1) by lia. ring.
Qed.

Lemma requestFacilitatorDecision_total_backoff_witness :
  requestFacilitatorDecision alwaysRejectService testInput (testConfig (Some 3) (Some 10)) =
    (schedule 10 4, inl "x402 facilitator integration failed: X") /\
  fetchCount (schedule 10 4) = 4%nat /\ 2 * totalSleep (schedule 10 4) = 10 * (3 + 1) * 3.
Proof.
  assert (H : requestFacilitatorDecision alwaysRejectService testInput (testConfig (Some 3) (Some 10)) =
    (schedule 10 4, inl "x402 facilitator integration failed: X")) by (vm_compute; reflexivity).
  split; [exact H|].
  exact (requestFacilitatorDecision_total_backoff alwaysRejectService testInput (testConfig (Some 3) (Some 10)) "https://facilitator.local/decide" _ _
           eq_refl eq_refl ltac:(unfold effectiveRetryAttempts; simpl; lia) H).
Defined.

(** When every response is an HTTP error, the call runs the whole retry
    schedule and fails with the status and body of the last response
    ("no response body" when it is empty). *)
Theorem requestFacilitatorDecision_http_errors service input config u status rawBody parsed :
  url config = Some u -> is_blank u = false -> 0 <= effectiveRetryAttempts config ->
  (forall k, exists s b p, service k = FetchResponse false s b p) ->
  service (effectiveRetryAttempts config + 1) = FetchResponse false status rawBody parsed ->
  requestFacilitatorDecision service input config =
    (schedule (effectiveBackoffMs config) (effectiveRetryAttempts config + 1),
     inl ("x402 facilitator integration failed: Facilitator error " ++ Z_to_string status ++ ": " ++
          (if String.eqb rawBody "" then "no response body" else rawBody))).
Proof.
  intros Hu Hb Hr Hall Hlast.
  assert (Hfails : forall j, exists e, facilitatorAttempt input (service j) = inl e).
  { intros j. destruct (Hall j) as (s & b & p & Hj). rewrite Hj. simpl. eexists; reflexivity. }
  pose proof (requestFacilitatorDecision_configured service input config u Hu Hb) as Hc.
  cbv zeta in Hc.
  destruct (attemptLoop_all_fail service input (effectiveRetryAttempts config + 1)
              (effectiveBackoffMs config) (Z.to_nat (effectiveRetryAttempts config + 1)) 1 None
              ltac:(lia) (fun j _ => Hfails j)) as [m Hm].
  destruct (attemptLoop service input (effectiveRetryAttempts config + 1) (effectiveBackoffMs config)
              (Z.to_nat (effectiveRetryAttempts config + 1)) 1 None) as [tr res] eqn:Hloop.
  simpl in Hm. subst res.
  destruct (requestFacilitatorDecision_retry_facts service input config u tr (inl m) Hu Hb Hc)
    as (_ & _ & Hfail & _).
  destruct (Hfail Hr m eq_refl) as [Htr [e [He Hmsg]]].
  rewrite Hc, Htr, Hmsg. rewrite Hlast in He. simpl in He. injection He as <-.
  reflexivity.
Qed.

(** Every call: HTTP 502 with an empty body. *)
Lemma requestFacilitatorDecision_http_errors_witness :
  requestFacilitatorDecision (fun _ => FetchResponse false 502 "" (inl "Unexpected end of JSON input"))
    testInput (testConfig (Some 1) (Some 5)) =
    (schedule 5 2, inl "x402 facilitator integration failed: Facilitator error 502: no response body").
Proof.
  refine (requestFacilitatorDecision_http_errors
            (fun _ => FetchResponse false 502 "" (inl "Unexpected end of JSON input"))
            testInput (testConfig (Some 1) (Some 5)) "https://facilitator.local/decide"
            502 "" (inl "Unexpected end of JSON input") _ _ _ _ _).
  - reflexivity.
  - reflexivity.
  - unfold effectiveRetryAttempts. simpl. lia.
  - intros k. do 3 eexists. reflexivity.
  - reflexivity.
Defined.

Import ApprovalBot Payment.

(** ** Further properties: payment path of the MCP server *)

(** [ensureRuntimeGuards] lets the server start exactly when the network
    is not mainnet, or mainnet mode is enabled, [AGENT_MNEMONIC] and
    [CONTRACT_ADDRESS] are set to non-blank values and both state-file
    paths are non-blank. *)
Theorem ensureRuntimeGuards_passes_iff env network enableMainnet auditFile brokerFile :
  ensureRuntimeGuards env network enableMainnet auditFile brokerFile = None <->
  network <> "mainnet" \/
  (enableMainnet = true /\
   (exists v, env "AGENT_MNEMONIC" = Some v /\ is_blank v = false) /\
   (exists v, env "CONTRACT_ADDRESS" = Some v /\ is_blank v = false) /\
   is_blank auditFile = false /\ is_blank brokerFile = false).
Proof.
  assert (Hreq : forall name, (exists v, requiredEnv env name = inr v) <->
                              (exists v, env name = Some v /\ is_blank v = false)).
  { intros name. unfold requiredEnv. destruct (env name) as [v|].
    - destruct (String.eqb_spec v "") as [->|Hne]; simpl.
      + split; [intros [? H]; discriminate | intros (? & H & Hb); injection H as <-; discriminate].
      + destruct (is_blank v) eqn:Hb.
        * split; [intros [? H]; discriminate | intros (? & H & Hb'); injection H as <-; congruence].
        * split; [intros _; exists v; split; [reflexivity | exact Hb] | intros _; eexists; reflexivity].
    - split; [intros [? H]; discriminate | intros (? & H & _); discriminate]. }
  unfold ensureRuntimeGuards.
  destruct (String.eqb_spec network "mainnet") as [Hn|Hn]; simpl.
  - destruct enableMainnet; simpl.
    + destruct (requiredEnv env "AGENT_MNEMONIC") as [e1|v1] eqn:H1.
      * split; [discriminate|].
        intros [Hc|(_ & Hm & _)]; [contradiction|].
        apply Hreq in Hm. destruct Hm as [v Hv]. congruence.
      * destruct (requiredEnv env "CONTRACT_ADDRESS") as [e2|v2] eqn:H2.
        -- split; [discriminate|].
           intros [Hc|(_ & _ & Hm & _)]; [contradiction|].
           apply Hreq in Hm. destruct Hm as [v Hv]. congruence.
        -- assert (Hm1 : exists v, env "AGENT_MNEMONIC" = Some v /\ is_blank v = false)
             by (apply Hreq; eexists; exact H1).
           assert (Hm2 : exists v, env "CONTRACT_ADDRESS" = Some v /\ is_blank v = false)
             by (apply Hreq; eexists; exact H2).
           destruct (is_blank auditFile) eqn:Ha.
           ++ split; [discriminate|]. intros [Hc|(_ & _ & _ & Ha' & _)]; [contradiction | congruence].
           ++ destruct (is_blank brokerFile) eqn:Hb.
              ** split; [discriminate|]. intros [Hc|(_ & _ & _ & _ & Hb')]; [contradiction | congruence].
              ** split; [intros _; right; repeat split; assumption | reflexivity].
    + split; [discriminate|]. intros [Hc|(Ht & _)]; [contradiction | discriminate].
  - destruct (negb enableMainnet); simpl; split; (reflexivity || (intros _; left; exact Hn)).
Qed.

(** With [X402_FACILITATOR_FAIL_OPEN] off, a facilitator failure aborts
    [execute_m2m_payment] with the facilitator's error: no [ExecutePayment]
    message is sent and the audit file is left as it was. *)
Theorem execute_m2m_payment_fail_closed codecs service config o contractAddress targetAddress
    amountInTon requested generated records contractAddr tr e :
  addressParse codecs contractAddress = inr contractAddr ->
  requestFacilitatorDecision service
    {| in_requestId := effectiveRequestId requested generated;
       in_contractAddress := contractAddress; in_targetAddress := targetAddress;
       in_amountInTon := amountInTon |} config = (tr, inl e) ->
  execute_m2m_payment codecs service config false o contractAddress targetAddress amountInTon
    requested generated records = (tr, records, None, inl e).
Proof.
  intros Hc Hf. unfold execute_m2m_payment, preparePaymentRequest. simpl.
  rewrite Hc, Hf. reflexivity.
Qed.

Lemma execute_m2m_payment_fail_closed_witness :
  execute_m2m_payment acceptAllCodecs alwaysRejectService (testConfig (Some 1) (Some 5)) false okChain
    (in_contractAddress testInput) (in_targetAddress testInput) "0.3" (Some " req-4 ") "req_0_0" [] =
  (schedule 5 2, [], None, inl "x402 facilitator integration failed: X").
Proof.
  apply (execute_m2m_payment_fail_closed _ _ _ _ _ _ _ _ _ _ (in_contractAddress testInput)).
  - reflexivity.
  - vm_compute. reflexivity.
Defined.

(** A prepared payment is built from the facilitator's decision when it
    gives one, and from the caller's target and amount otherwise, which
    happens only when no facilitator URL is configured or when the
    facilitator failed with fail-open on. The nanoton amount is [toNano]
    of the amount kept, and the request id is the caller's. *)
Theorem preparePaymentRequest_effective_terms codecs service config failOpen args tr p :
  preparePaymentRequest codecs service config failOpen args = (tr, inr p) ->
  let decision := prep_facilitatorDecision p in
  let facilitator := requestFacilitatorDecision service
    {| in_requestId := arg_requestId args; in_contractAddress := arg_contractAddress args;
       in_targetAddress := arg_targetAddress args; in_amountInTon := arg_amountInTon args |}
    config in
  prep_requestId p = arg_requestId args /\
  addressParse codecs (arg_contractAddress args) = inr (prep_contractAddr p) /\
  addressParse codecs (match decision with Some d => dec_targetAddress d
                                         | None => arg_targetAddress args end) =
    inr (prep_targetAddr p) /\
  prep_amountInTon p = (match decision with Some d => dec_amountInTon d
                                          | None => arg_amountInTon args end) /\
  toNano codecs (prep_amountInTon p) = inr (prep_amountNano p) /\
  fst facilitator = tr /\
  (forall d, decision = Some d -> snd facilitator = inr (Some d)) /\
  (decision = None -> snd facilitator = inr None \/
                      (failOpen = true /\ exists e, snd facilitator = inl e)).
Proof.
  unfold preparePaymentRequest. intros H. cbv zeta.
  destruct (addressParse codecs (arg_contractAddress args)) as [e0|c] eqn:Hc; [discriminate|].
  destruct (requestFacilitatorDecision service _ config) as [tr0 res] eqn:Hf.
  destruct res as [e1|[d0|]].
  - destruct failOpen; [|discriminate].
    destruct (addressParse codecs (arg_targetAddress args)) as [e2|t] eqn:Ht; [discriminate|].
    destruct (toNano codecs (arg_amountInTon args)) as [e3|n] eqn:Hn; [discriminate|].
    injection H as <- <-. simpl.
    repeat split; try assumption; try reflexivity; [intros d Hd; discriminate|].
    intros _. right. split; [reflexivity | eexists; reflexivity].
  - destruct (addressParse codecs (dec_targetAddress d0)) as [e2|t] eqn:Ht; [discriminate|].
    destruct (toNano codecs (dec_amountInTon d0)) as [e3|n] eqn:Hn; [discriminate|].
    injection H as <- <-. simpl.
    repeat split; try assumption; try reflexivity.
    + intros d Hd. injection Hd as <-. reflexivity.
    + intros Hd. discriminate.
  - destruct (addressParse codecs (arg_targetAddress args)) as [e2|t] eqn:Ht; [discriminate|].
    destruct (toNano codecs (arg_amountInTon args)) as [e3|n] eqn:Hn; [discriminate|].
    injection H as <- <-. simpl.
    repeat split; try assumption; try reflexivity.
    + intros d Hd. discriminate.
    + intros _. left. reflexivity.
Qed.

Lemma preparePaymentRequest_effective_terms_witness :
  preparePaymentRequest acceptAllCodecs alwaysRejectService (testConfig (Some 0) None) true
    {| arg_contractAddress := in_contractAddress testInput;
       arg_targetAddress := in_targetAddress testInput;
       arg_amountInTon := "0.3"; arg_requestId := "req-4" |} =
  ([Fetch 1],
   inr {| prep_requestId := "req-4"; prep_contractAddr := in_contractAddress testInput;
          prep_targetAddr := in_targetAddress testInput; prep_amountNano := 300000000;
          prep_amountInTon := "0.3"; prep_facilitatorDecision := None |}) /\
  (None = @None FacilitatorDecision ->
   snd (requestFacilitatorDecision alwaysRejectService testInput (testConfig (Some 0) None)) = inr None \/
   (true = true /\ exists e,
      snd (requestFacilitatorDecision alwaysRejectService testInput (testConfig (Some 0) None)) = inl e)).
Proof.
  assert (H : preparePaymentRequest acceptAllCodecs alwaysRejectService (testConfig (Some 0) None) true
    {| arg_contractAddress := in_contractAddress testInput;
       arg_targetAddress := in_targetAddress testInput;
       arg_amountInTon := "0.3"; arg_requestId := "req-4" |} =
  ([Fetch 1],
   inr {| prep_requestId := "req-4"; prep_contractAddr := in_contractAddress testInput;
          prep_targetAddr := in_targetAddress testInput; prep_amountNano := 300000000;
          prep_amountInTon := "0.3"; prep_facilitatorDecision := None |})) by (vm_compute; reflexivity).
  split; [exact H|].
  exact (proj2 (proj2 (proj2 (proj2 (proj2 (proj2 (proj2
           (preparePaymentRequest_effective_terms _ _ _ _ _ _ _ H)))))))).
Defined.

Lemma submitPreparedPayment_success facilitatorUrl o prepared records records' sent
    agentWallet approvalExpected :
  submitPreparedPayment facilitatorUrl o prepared records =
    (records', sent, inr (agentWallet, approvalExpected)) ->
  exists buffer remaining r,
    bufferNano o = inr buffer /\ remainingAllowance o = inr remaining /\
    sent = Some {| msg_value := prep_amountNano prepared + buffer;
                   msg_amount := prep_amountNano prepared;
                   msg_target := prep_targetAddr prepared |} /\
    approvalExpected = (remaining <? prep_amountNano prepared) /\
    records' = (records ++ [r])%list /\
    srv_requestId r = prep_requestId prepared /\
    srv_contractAddress r = prep_contractAddr prepared /\
    srv_targetAddress r = prep_targetAddr prepared /\
    srv_amountNano r = Z_to_string (prep_amountNano prepared) /\
    srv_approvalExpected r = approvalExpected /\
    srv_status r = (if approvalExpected then Audit.ReqApprovalPending else Audit.ReqSubmitted) /\
    srv_consumedByApprovalId r = None.
Proof.
  unfold submitPreparedPayment. intros H.
  destruct (bufferNano o) as [e|buffer] eqn:Hb; [discriminate|].
  destruct (agentSender o) as [e|w] eqn:Ha; [discriminate|].
  destruct (remainingAllowance o) as [e|remaining] eqn:Hr; [discriminate|].
  destruct (sendResult o) as [e|] eqn:Hs; [discriminate|].
  injection H as <- <- <- <-.
  do 3 eexists. repeat split; reflexivity.
Qed.

(** When [submitPreparedPayment] returns, it has sent [ExecutePayment]
    for the prepared amount with the execution buffer added to the value,
    and appended one audit record for the request after the existing
    ones. That record expects an approval, with status
    [approval_pending], exactly when the amount exceeds the contract's
    remaining allowance read before sending; otherwise its status is
    [submitted]. *)
Theorem submitPreparedPayment_records_outcome facilitatorUrl o prepared records records' sent
    agentWallet approvalExpected :
  submitPreparedPayment facilitatorUrl o prepared records =
    (records', sent, inr (agentWallet, approvalExpected)) ->
  exists buffer remaining r,
    bufferNano o = inr buffer /\ remainingAllowance o = inr remaining /\
    sent = Some {| msg_value := prep_amountNano prepared + buffer;
                   msg_amount := prep_amountNano prepared;
                   msg_target := prep_targetAddr prepared |} /\
    approvalExpected = (remaining <? prep_amountNano prepared) /\
    records' = (records ++ [r])%list /\
    srv_requestId r = prep_requestId prepared /\
    srv_contractAddress r = prep_contractAddr prepared /\
    srv_targetAddress r = prep_targetAddr prepared /\
    srv_amountNano r = Z_to_string (prep_amountNano prepared) /\
    srv_approvalExpected r = approvalExpected /\
    srv_status r = (if approvalExpected then Audit.ReqApprovalPending else Audit.ReqSubmitted) /\
    srv_consumedByApprovalId r = None.
Proof.
  apply submitPreparedPayment_success.
Qed.

Lemma submitPreparedPayment_records_outcome_witness :
  exists buffer remaining r,
    bufferNano okChain = inr buffer /\ remainingAllowance okChain = inr remaining /\
    Some {| msg_value := 300000000 + 100000000; msg_amount := 300000000; msg_target := "EQT" |} =
      Some {| msg_value := 300000000 + buffer; msg_amount := 300000000; msg_target := "EQT" |} /\
    false = (remaining <? 300000000) /\
    fst (fst (submitPreparedPayment "" okChain
      {| prep_requestId := "req-4"; prep_contractAddr := "EQC"; prep_targetAddr := "EQT";
         prep_amountNano := 300000000; prep_amountInTon := "0.3";
         prep_facilitatorDecision := None |} [])) = ([] ++ [r])%list /\
    srv_requestId r = "req-4" /\ srv_contractAddress r = "EQC" /\ srv_targetAddress r = "EQT" /\
    srv_amountNano r = Z_to_string 300000000 /\ srv_approvalExpected r = false /\
    srv_status r = Audit.ReqSubmitted /\ srv_consumedByApprovalId r = None.
Proof.
  exact (submitPreparedPayment_records_outcome "" okChain
           {| prep_requestId := "req-4"; prep_contractAddr := "EQC"; prep_targetAddr := "EQT";
              prep_amountNano := 300000000; prep_amountInTon := "0.3";
              prep_facilitatorDecision := None |} [] _ _ "EQA-agent" false eq_refl).
Defined.

(** Whenever [execute_m2m_payment] throws, the audit file is left as it
    was: the record is appended only after the payment was sent. *)
Theorem execute_m2m_payment_failure_keeps_audit codecs service config failOpen o contractAddress
    targetAddress amountInTon requested generated records e :
  snd (execute_m2m_payment codecs service config failOpen o contractAddress targetAddress
         amountInTon requested generated records) = inl e ->
  snd (fst (fst (execute_m2m_payment codecs service config failOpen o contractAddress targetAddress
                   amountInTon requested generated records))) = records.
Proof.
  unfold execute_m2m_payment. cbv zeta.
  destruct (preparePaymentRequest _ _ _ _ _) as [tr [m|p]]; simpl; [reflexivity|].
  destruct (submitPreparedPayment _ o p records) as [[records' sent] [m|[w b]]] eqn:Hs; simpl;
    [|discriminate].
  intros _. unfold submitPreparedPayment in Hs.
  repeat case_match; congruence.
Qed.

Lemma execute_m2m_payment_failure_keeps_audit_witness :
  snd (execute_m2m_payment acceptAllCodecs stringAcceptedService (testConfig None None) false
         failingSendChain "EQC" "EQT" "0.3" None "req_0_0" []) =
    inl "Failed to send external message" /\
  snd (fst (fst (execute_m2m_payment acceptAllCodecs stringAcceptedService (testConfig None None) false
         failingSendChain "EQC" "EQT" "0.3" None "req_0_0" []))) = [].
Proof.
  split; [vm_compute; reflexivity|].
  apply (execute_m2m_payment_failure_keeps_audit _ _ _ _ _ _ _ _ _ _ _
           "Failed to send external message").
  vm_compute. reflexivity.
Defined.

(** The audit record a submitted payment appends is the one the approval
    bot then claims for an approval request of the same contract, target
    and amount: the request id returned is the submitted request's, and
    only the new record is marked consumed by that approval. *)
Theorem submitted_payment_claimed_by_bot facilitatorUrl o prepared records records' sent
    agentWallet approvalExpected (cfg : BotConfig) (a : PendingApproval) now :
  submitPreparedPayment facilitatorUrl o prepared records =
    (records', sent, inr (agentWallet, approvalExpected)) ->
  contractAddressStr cfg = prep_contractAddr prepared ->
  target a = prep_targetAddr prepared -> amount a = prep_amountNano prepared ->
  exists r,
    Audit.claimMatchingRequestId (contractAddressStr cfg) a now (map botView records') =
      ((map botView records ++ [r])%list, Some (prep_requestId prepared)) /\
    Audit.consumedByApprovalId r = Some (id a) /\
    Audit.status r = Audit.ReqApprovalPending.
Proof.
  intros H Hc Ht Hm.
  destruct (submitPreparedPayment_success _ _ _ _ _ _ _ _ H)
    as (buffer & remaining & r & _ & _ & _ & _ & -> & Hid & Hca & Hta & Hna & _ & _ & Hcons).
  exists (Audit.markClaimed a now (botView r)).
  unfold Audit.claimMatchingRequestId. rewrite map_app, rev_app_distr. simpl.
  assert (Hcl : Audit.claimable (contractAddressStr cfg) a (botView r) = true).
  { unfold Audit.claimable, Audit.truthy. simpl. rewrite Hcons, Hca, Hta, Hna, Hc, Ht, Hm.
    rewrite !String.eqb_refl. reflexivity. }
  rewrite Hcl. simpl. rewrite rev_involutive, Hid.
  split; [reflexivity|]. split; reflexivity.
Qed.

Lemma submitted_payment_claimed_by_bot_witness :
  exists r,
    Audit.claimMatchingRequestId "EQC" {| id := "7-abcdef01"; amount := 300000000; target := "EQT";
                                          txLt := "7"; txHashHex := "abcdef0123" |} 10
      (map botView (fst (fst (submitPreparedPayment "" okChain
         {| prep_requestId := "req-4"; prep_contractAddr := "EQC"; prep_targetAddr := "EQT";
            prep_amountNano := 300000000; prep_amountInTon := "0.3";
            prep_facilitatorDecision := None |} [])))) =
      ((map botView [] ++ [r])%list, Some "req-4") /\
    Audit.consumedByApprovalId r = Some "7-abcdef01" /\
    Audit.status r = Audit.ReqApprovalPending.
Proof.
  exact (submitted_payment_claimed_by_bot "" okChain
           {| prep_requestId := "req-4"; prep_contractAddr := "EQC"; prep_targetAddr := "EQT";
              prep_amountNano := 300000000; prep_amountInTon := "0.3";
              prep_facilitatorDecision := None |} [] _ _ "EQA-agent" false
           {| ownerChatId := "42"; contractAddressStr := "EQC" |}
           {| id := "7-abcdef01"; amount := 300000000; target := "EQT";
              txLt := "7"; txHashHex := "abcdef0123" |} 10
           eq_refl eq_refl eq_refl eq_refl).
Defined.

Import ApprovalBot.

(** ** Further properties: approval bot *)

Lemma setRecordStatus_other st i s by' e1 e2 now j :
  j <> i ->
  approvalRecords (setRecordStatus st i s by' e1 e2 now) !! j = approvalRecords st !! j.
Proof.
  intros Hne. unfold setRecordStatus.
  destruct (approvalRecords st !! i); [|reflexivity].
  simpl. rewrite lookup_insert_ne by congruence. reflexivity.
Qed.

Lemma rejectTry_keeps_terminal cfg st chatId fromId approvalId tg now j r :
  approvalRecords st !! j = Some r -> is_pending (status r) = false ->
  approvalRecords (fst (fst (rejectTry cfg st chatId fromId approvalId tg now))) !! j = Some r.
Proof.
  intros Hj Hp. unfold rejectTry.
  destruct (negb _); [exact Hj|].
  assert (Hproceed : j <> approvalId ->
    forall removed : bool,
    approvalRecords (if removed then
        with_audit (setRecordStatus (with_pending st (delete approvalId (pendingApprovals st)))
                      approvalId Rejected fromId None None now)
          (Audit.updateRequestAuditStatus
             (recordRequestId (with_pending st (delete approvalId (pendingApprovals st))) approvalId)
             Audit.ReqRejected now
             (requestAudit (setRecordStatus (with_pending st (delete approvalId (pendingApprovals st)))
                              approvalId Rejected fromId None None now)))
      else with_pending st (delete approvalId (pendingApprovals st))) !! j = Some r).
  { intros Hne [|]; simpl; [|exact Hj].
    rewrite setRecordStatus_other by exact Hne. exact Hj. }
  destruct (approvalRecords st !! approvalId) as [rec|] eqn:Hi.
  - destruct (is_pending (status rec)) eqn:Hrp; simpl.
    + assert (Hne : j <> approvalId) by (intros ->; congruence).
      specialize (Hproceed Hne).
      destruct (answerResult tg); [apply Hproceed|].
      destruct (replyResult tg); apply Hproceed.
    + unfold answerIn. destruct (answerResult tg); exact Hj.
  - assert (Hne : j <> approvalId) by (intros ->; congruence).
    specialize (Hproceed Hne).
    destruct (answerResult tg); [apply Hproceed|].
    destruct (replyResult tg); apply Hproceed.
Qed.

(** Unlike the approve handler, the reject handler never alters a record
    that is already approved, rejected or failed, whatever chat the
    callback comes from and whatever the Telegram calls do: such records
    are kept as they are, under every id. *)
Theorem reject_cb_keeps_terminal_records cfg st chatId fromId approvalId tg now j r :
  approvalRecords st !! j = Some r -> is_pending (status r) = false ->
  approvalRecords (fst (reject_cb cfg st chatId fromId approvalId tg now)) !! j = Some r.
Proof.
  intros Hj Hp.
  pose proof (rejectTry_keeps_terminal cfg st chatId fromId approvalId tg now j r Hj Hp) as H.
  unfold reject_cb.
  destruct (rejectTry cfg st chatId fromId approvalId tg now) as [[st1 outs] err].
  destruct err; exact H.
Qed.

Lemma reject_cb_keeps_terminal_records_witness :
  approvalRecords (fst (reject_cb ownerConfig approvedState "999" "999" "7-abcdef01"
                          {| answerResult := Some "query is too old"; replyResult := None |} 20))
    !! "7-abcdef01" = Some approvedRecord.
Proof.
  apply reject_cb_keeps_terminal_records.
  - reflexivity.
  - reflexivity.
Defined.



Lemma updateScan_skip rid s now (l rest : list Audit.RequestAuditRecord) :
  Forall (fun y => Audit.requestId y <> rid) l ->
  Audit.updateScan rid s now (l ++ rest) = option_map (app l) (Audit.updateScan rid s now rest).
Proof.
  induction 1 as [|y l Hy _ IH]; simpl.
  - destruct (Audit.updateScan rid s now rest); reflexivity.
  - destruct (String.eqb_spec (Audit.requestId y) rid); [contradiction|].
    rewrite IH. destruct (Audit.updateScan rid s now rest); reflexivity.
Qed.

(** [updateRequestAuditStatus] rewrites only the latest audit record of
    the request (its status, and its update time), and leaves the log
    unchanged when no record carries the request id. *)
Theorem updateRequestAuditStatus_latest_only rid s now pre x post :
  rid <> "" ->
  Audit.requestId x = rid -> Forall (fun y => Audit.requestId y <> rid) post ->
  Audit.updateRequestAuditStatus (Some rid) s now (pre ++ x :: post) =
    (pre ++ Audit.with_status s now x :: post)%list /\
  (forall records, Forall (fun y => Audit.requestId y <> rid) records ->
   Audit.updateRequestAuditStatus (Some rid) s now records = records).
Proof.
  intros Hne Hx Hpost.
  assert (Ht : Audit.truthy (Some rid) = true).
  { simpl. destruct (String.eqb_spec rid ""); [contradiction | reflexivity]. }
  unfold Audit.updateRequestAuditStatus. rewrite Ht. split.
  - rewrite rev_app_distr. simpl. rewrite <- app_assoc. simpl.
    rewrite updateScan_skip by (apply Forall_rev; exact Hpost). simpl.
    rewrite Hx, String.eqb_refl. simpl.
    rewrite rev_app_distr. simpl. rewrite rev_involutive, rev_involutive.
    rewrite <- app_assoc. reflexivity.
  - intros records Hall.
    pose proof (updateScan_skip rid s now (rev records) [] (Forall_rev Hall)) as H.
    rewrite app_nil_r in H. rewrite H. reflexivity.
Qed.

Lemma updateRequestAuditStatus_latest_only_witness :
  Audit.updateRequestAuditStatus (Some "req-2") Audit.ReqRejected 9
    ([auditRecord "req-2" None; auditRecord "req-1" None] ++ auditRecord "req-2" None ::
     [auditRecord "req-3" None])%list =
    ([auditRecord "req-2" None; auditRecord "req-1" None] ++
     Audit.with_status Audit.ReqRejected 9 (auditRecord "req-2" None) ::
     [auditRecord "req-3" None])%list /\
  (forall records, Forall (fun y => Audit.requestId y <> "req-2") records ->
   Audit.updateRequestAuditStatus (Some "req-2") Audit.ReqRejected 9 records = records).
Proof.
  apply updateRequestAuditStatus_latest_only.
  - discriminate.
  - reflexivity.
  - repeat constructor. simpl. discriminate.
Defined.

(** Persistence: [savedRecords]/[savedSeen] follow the in-memory state. *)
Lemma persisted_botStep cfg st step :
  savedRecords st = approvalRecords st -> savedSeen st = seenTransactions st ->
  savedRecords (fst (botStep cfg st step)) = approvalRecords (fst (botStep cfg st step)) /\
  savedSeen (fst (botStep cfg st step)) = seenTransactions (fst (botStep cfg st step)).
Proof.
  intros Hr Hs.
  assert (Hset : forall st' i s by' e1 e2 now,
    savedRecords st' = approvalRecords st' -> savedSeen st' = seenTransactions st' ->
    savedRecords (setRecordStatus st' i s by' e1 e2 now) =
      approvalRecords (setRecordStatus st' i s by' e1 e2 now) /\
    savedSeen (setRecordStatus st' i s by' e1 e2 now) =
      seenTransactions (setRecordStatus st' i s by' e1 e2 now)).
  { intros st' i s by' e1 e2 now H1 H2. unfold setRecordStatus.
    destruct (approvalRecords st' !! i); [split; reflexivity | split; assumption]. }
  assert (Hproc : forall txs st' sr now,
    savedRecords st' = approvalRecords st' -> savedSeen st' = seenTransactions st' ->
    savedRecords (fst (fst (processTransactions cfg st' txs sr now))) =
      approvalRecords (fst (fst (processTransactions cfg st' txs sr now))) /\
    savedSeen (fst (fst (processTransactions cfg st' txs sr now))) =
      seenTransactions (fst (fst (processTransactions cfg st' txs sr now)))).
  { induction txs as [|tx rest IH]; intros st' sr now H1 H2; simpl; [split; assumption|].
    destruct (parseApprovalFromTransaction st' tx) as [a|]; [|apply IH; assumption].
    assert (Hn : savedRecords (fst (fst (notifyApprovalRequest cfg st' a now (sr (id a))))) =
                   approvalRecords (fst (fst (notifyApprovalRequest cfg st' a now (sr (id a))))) /\
                 savedSeen (fst (fst (notifyApprovalRequest cfg st' a now (sr (id a))))) =
                   seenTransactions (fst (fst (notifyApprovalRequest cfg st' a now (sr (id a)))))).
    { unfold notifyApprovalRequest.
      destruct (approvalRecords st' !! id a).
      - destruct (_ && _); simpl; split; assumption.
      - destruct (Audit.claimMatchingRequestId _ _ _ _). simpl. split; reflexivity. }
    destruct (notifyApprovalRequest cfg st' a now (sr (id a))) as [[st1 o1] [e|]].
    - exact Hn.
    - simpl in Hn. destruct Hn as [Hn1 Hn2].
      specialize (IH st1 sr now Hn1 Hn2).
      destruct (processTransactions cfg st1 rest sr now) as [[st2 o2] err2]. exact IH. }
  destruct step as [recent|txs sr now|chatId fromId approvalId tg submit now|chatId fromId approvalId tg now];
    simpl.
  - unfold startup. destruct (_ && _); simpl; split; reflexivity.
  - unfold pollTick. specialize (Hproc txs st sr now Hr Hs).
    destruct (processTransactions cfg st txs sr now) as [[st1 outs] [e|]]; simpl.
    + exact Hproc.
    + split; reflexivity.
  - assert (Htry : savedRecords (fst (fst (approveTry cfg st chatId fromId approvalId tg submit now))) =
                     approvalRecords (fst (fst (approveTry cfg st chatId fromId approvalId tg submit now))) /\
                   savedSeen (fst (fst (approveTry cfg st chatId fromId approvalId tg submit now))) =
                     seenTransactions (fst (fst (approveTry cfg st chatId fromId approvalId tg submit now)))).
    { unfold approveTry, approveProceed, answerIn.
      repeat case_match; simpl; first [split; assumption | apply Hset; assumption]. }
    unfold approve_cb.
    destruct (approveTry cfg st chatId fromId approvalId tg submit now) as [[st1 outs] [m|]];
      simpl in *; [|exact Htry].
    destruct (negb _); simpl; [|exact Htry].
    apply Hset; apply Htry.
  - assert (Htry : savedRecords (fst (fst (rejectTry cfg st chatId fromId approvalId tg now))) =
                     approvalRecords (fst (fst (rejectTry cfg st chatId fromId approvalId tg now))) /\
                   savedSeen (fst (fst (rejectTry cfg st chatId fromId approvalId tg now))) =
                     seenTransactions (fst (fst (rejectTry cfg st chatId fromId approvalId tg now)))).
    { unfold rejectTry, answerIn.
      repeat case_match; simpl; first [split; assumption | apply Hset; assumption]. }
    unfold reject_cb.
    destruct (rejectTry cfg st chatId fromId approvalId tg now) as [[st1 outs] [m|]]; exact Htry.
Qed.

Lemma persisted_runBot cfg steps : forall st,
  savedRecords st = approvalRecords st -> savedSeen st = seenTransactions st ->
  savedRecords (fst (runBot cfg st steps)) = approvalRecords (fst (runBot cfg st steps)) /\
  savedSeen (fst (runBot cfg st steps)) = seenTransactions (fst (runBot cfg st steps)).
Proof.
  induction steps as [|step rest IH]; intros st Hr Hs; simpl; [split; assumption|].
  pose proof (persisted_botStep cfg st step Hr Hs) as [H1 H2].
  destruct (botStep cfg st step) as [st1 o1]. simpl in H1, H2.
  specialize (IH st1 H1 H2).
  destruct (runBot cfg st1 rest) as [st2 o2]. exact IH.
Qed.

(** The state file is written on every change of the approval records
    and of the seen transactions, so a restart at any point of a run
    brings back exactly the records held before it, forgets no seen
    transaction, and rebuilds the pending approvals from the records
    still pending. *)
Theorem restart_restores_bot_state cfg audit steps recent :
  let st := fst (runBot cfg (freshBotState audit) steps) in
  let st' := fst (runBot cfg st [Startup recent]) in
  approvalRecords st' = approvalRecords st /\
  seenTransactions st ⊆ seenTransactions st' /\
  pendingApprovals st' = omap pendingOfRecord (approvalRecords st).
Proof.
  cbv zeta.
  destruct (persisted_runBot cfg steps (freshBotState audit) eq_refl eq_refl) as [Hr Hs].
  set (st := fst (runBot cfg (freshBotState audit) steps)) in *.
  simpl. unfold startup.
  destruct (_ && _); simpl; rewrite Hr; [|rewrite Hs; split; [reflexivity | split; [set_solver | reflexivity]]].
  split; [reflexivity|]. split; [|reflexivity].
  rewrite <- Hs.
  assert (Hgen : forall (l : list Transaction) (s : gset string),
            s ⊆ fold_left (fun s tx => {[hash tx]} ∪ s) l s).
  { induction l as [|tx l IH]; intros s; simpl; [set_solver|].
    etransitivity; [|apply IH]. set_solver. }
  apply Hgen.
Qed.

Lemma seen_after_markSeen (l : list Transaction) : forall (s : gset string) tx,
  In tx l -> hash tx ∈ fold_left (fun s tx => {[hash tx]} ∪ s) l s.
Proof.
  assert (Hmono : forall (l' : list Transaction) (s : gset string) h,
            h ∈ s -> h ∈ fold_left (fun s tx => {[hash tx]} ∪ s) l' s).
  { induction l' as [|t l' IH]; intros s h Hh; simpl; [exact Hh|]. apply IH. set_solver. }
  induction l as [|t l IH]; intros s tx Hin; [destruct Hin|].
  destruct Hin as [->|Hin]; simpl.
  - apply Hmono. set_solver.
  - apply IH. exact Hin.
Qed.

Lemma processTransactions_all_seen cfg st txs sr now :
  (forall tx, In tx txs -> hash tx ∈ seenTransactions st) ->
  processTransactions cfg st txs sr now = (st, [], None).
Proof.
  induction txs as [|tx rest IH]; intros Hseen; simpl; [reflexivity|].
  unfold parseApprovalFromTransaction.
  rewrite bool_decide_eq_true_2 by (apply Hseen; left; reflexivity).
  apply IH. intros t Ht. apply Hseen. right. exact Ht.
Qed.

(** On a first deployment the bot marks the recent history as seen at
    startup, so a later poll that returns only transactions of that
    history sends no notification and restores no approval. *)
Theorem startup_bootstrap_silences_history cfg audit recent txs sr now :
  (forall tx, In tx txs -> In tx recent) ->
  snd (pollTick cfg (startup (freshBotState audit) recent) txs sr now) = [].
Proof.
  intros Hsub. unfold pollTick.
  rewrite processTransactions_all_seen; [reflexivity|].
  intros tx Htx. unfold startup. simpl.
  apply seen_after_markSeen. apply Hsub. exact Htx.
Qed.

Lemma startup_bootstrap_silences_history_witness :
  (forall tx, In tx [approvalTx] -> In tx [approvalTx]) /\
  snd (pollTick ownerConfig (startup (freshBotState auditLog) [approvalTx]) [approvalTx]
         (fun _ => None) 10) = [].
Proof.
  split; [intros tx Htx; exact Htx|].
  apply startup_bootstrap_silences_history. intros tx Htx; exact Htx.
Defined.

(** When [bot.api.sendMessage] throws for a new approval, the poll has
    already saved the approval record as pending but does not mark the
    transaction seen. The next poll of that transaction finds the pending
    record and its pending approval and notifies nothing: the owner is
    never sent the notification that failed. *)
Theorem failed_notification_not_resent cfg st tx amt tgt sr e now :
  hash tx ∉ seenTransactions st ->
  firstApprovalRequest (outMessages tx) = Some (amt, tgt) ->
  approvalRecords st !! approvalKeyFromTx (lt tx) (hash tx) = None ->
  sr (approvalKeyFromTx (lt tx) (hash tx)) = Some e ->
  let st1 := fst (pollTick cfg st [tx] sr now) in
  (exists rid, snd (pollTick cfg st [tx] sr now) =
                 [Notified (approvalKeyFromTx (lt tx) (hash tx)) (hash tx) rid]) /\
  (hash tx ∉ seenTransactions st1) /\
  (exists rec, approvalRecords st1 !! approvalKeyFromTx (lt tx) (hash tx) = Some rec /\
               savedRecords st1 !! approvalKeyFromTx (lt tx) (hash tx) = Some rec /\
               status rec = Pending) /\
  (forall sr' now', snd (pollTick cfg st1 [tx] sr' now') = []).
Proof.
  intros Hns Hfirst Hnone Hsr. cbv zeta.
  set (a := {| id := approvalKeyFromTx (lt tx) (hash tx); amount := amt; target := tgt;
               txLt := Z_to_string (lt tx); txHashHex := hash tx |}).
  assert (Hparse : forall st', hash tx ∉ seenTransactions st' ->
                     parseApprovalFromTransaction st' tx = Some a).
  { intros st' Hn'. unfold parseApprovalFromTransaction.
    rewrite bool_decide_eq_false_2 by exact Hn'. rewrite Hfirst. reflexivity. }
  unfold pollTick. simpl. rewrite (Hparse st Hns).
  unfold notifyApprovalRequest. change (id a) with (approvalKeyFromTx (lt tx) (hash tx)). rewrite Hnone.
  simpl. rewrite Hsr.
  destruct (Audit.claimMatchingRequestId (contractAddressStr cfg) a now (requestAudit st))
    as [audit' rid] eqn:Hclaim.
  simpl.
  split; [exists rid; reflexivity|].
  split; [exact Hns|].
  split; [eexists; split; [|split]; [apply lookup_insert_eq | apply lookup_insert_eq | reflexivity]|].
  intros sr' now'. rewrite Hparse by (simpl; exact Hns). simpl.
  rewrite lookup_insert_eq. simpl. rewrite lookup_insert_eq. simpl. reflexivity.
Qed.

Lemma failed_notification_not_resent_witness :
  let st1 := fst (pollTick ownerConfig (freshBotState auditLog) [approvalTx]
                    (fun _ => Some "Forbidden: bot was blocked by the user") 10) in
  (exists rid, snd (pollTick ownerConfig (freshBotState auditLog) [approvalTx]
                      (fun _ => Some "Forbidden: bot was blocked by the user") 10) =
                 [Notified (approvalKeyFromTx (lt approvalTx) (hash approvalTx)) (hash approvalTx) rid]) /\
  (hash approvalTx ∉ seenTransactions st1) /\
  (exists rec, approvalRecords st1 !! approvalKeyFromTx (lt approvalTx) (hash approvalTx) = Some rec /\
               savedRecords st1 !! approvalKeyFromTx (lt approvalTx) (hash approvalTx) = Some rec /\
               status rec = Pending) /\
  (forall sr' now', snd (pollTick ownerConfig st1 [approvalTx] sr' now') = []).
Proof.
  apply (failed_notification_not_resent ownerConfig (freshBotState auditLog) approvalTx
           5000000000 "EQT-target" _ "Forbidden: bot was blocked by the user" 10).
  - simpl. set_solver.
  - reflexivity.
  - reflexivity.
  - reflexivity.
Defined.
